(** * nzbparser: subject-line parsing and NZB post-processing

    A shallow embedding of [subject.go] ([ParseSubject] and the Go
    [regexp] calls it makes) and of [nzbparser.go]: [ScanNzbFile],
    [MakeUnique], [ParseWithOptions] from the decoded XML on, and the
    part of [Write] before the XML marshalling.  The XML decoding and
    encoding themselves are not embedded.

    Strings are byte strings ([string] / [list ascii]).  The regular
    expressions are embedded as syntax trees and run by a backtracking
    matcher with leftmost-first semantics, the semantics Go's [regexp]
    package guarantees for submatches.  Character classes, [.] (any
    byte but a newline) and [(?i)] case folding are those of ASCII, so
    the embedding is exact on ASCII subjects. *)

From Stdlib Require Import String Ascii List ZArith Bool Lia Sorted Permutation.
From stdpp Require Import base gmap strings.
Import ListNotations.
Open Scope string_scope.

(* ================================================================= *)
(** ** Characters and Go [strings] helpers *)

Definition chr (n : nat) : ascii := ascii_of_nat n.
Definition code (a : ascii) : nat := nat_of_ascii a.

Definition is_digit (a : ascii) : bool := (48 <=? code a)%nat && (code a <=? 57)%nat.
Definition is_upper (a : ascii) : bool := (65 <=? code a)%nat && (code a <=? 90)%nat.
Definition is_lower (a : ascii) : bool := (97 <=? code a)%nat && (code a <=? 122)%nat.

(** ASCII [unicode.ToLower] / [ToUpper]. *)
Definition to_lower (a : ascii) : ascii := if is_upper a then chr (code a + 32) else a.
Definition to_upper (a : ascii) : ascii := if is_lower a then chr (code a - 32) else a.

(** [unicode.IsSpace] on ASCII: '\t', '\n', '\v', '\f', '\r' and ' '. *)
Definition is_space (a : ascii) : bool :=
  ((9 <=? code a)%nat && (code a <=? 13)%nat) || (code a =? 32)%nat.

(** The double quote character, written by its code. *)
Definition dq : string := String (chr 34) EmptyString.

Definition drop_while (p : ascii -> bool) : list ascii -> list ascii :=
  fix go l := match l with
              | [] => []
              | a :: l' => if p a then go l' else l
              end.

Definition trim_left_l (p : ascii -> bool) (l : list ascii) : list ascii := drop_while p l.
Definition trim_right_l (p : ascii -> bool) (l : list ascii) : list ascii :=
  rev (drop_while p (rev l)).
Definition trim_l (p : ascii -> bool) (l : list ascii) : list ascii :=
  trim_right_l p (trim_left_l p l).

(** [strings.TrimSpace]. *)
Definition TrimSpace (s : string) : string :=
  string_of_list_ascii (trim_l is_space (list_ascii_of_string s)).

(** [strings.Trim(s, cutset)]. *)
Definition in_cutset (cutset : string) (a : ascii) : bool :=
  existsb (fun b => Ascii.eqb a b) (list_ascii_of_string cutset).
Definition Trim (s cutset : string) : string :=
  string_of_list_ascii (trim_l (in_cutset cutset) (list_ascii_of_string s)).

(** [strings.ToLower] on ASCII. *)
Definition ToLower (s : string) : string :=
  string_of_list_ascii (map to_lower (list_ascii_of_string s)).

(** [strings.EqualFold] on ASCII. *)
Definition EqualFold (s t : string) : bool :=
  String.eqb (ToLower s) (ToLower t).

(** [strings.LastIndex(s, ".")] for a one-byte separator: [-1] when absent. *)
Definition LastIndexByte (s : string) (b : ascii) : Z :=
  fst (fold_left (fun '(r, i) a => (if Ascii.eqb a b then Z.of_nat i else r, S i))
                 (list_ascii_of_string s) ((-1)%Z, 0%nat)).

(** [s[i:]]. *)
Definition slice_from (s : string) (i : nat) : string :=
  string_of_list_ascii (skipn i (list_ascii_of_string s)).

(* ================================================================= *)
(** ** [strconv.Atoi] (64-bit [int]) *)

Inductive NumError := ErrSyntax | ErrRange.

Definition maxUint64 : Z := 18446744073709551615.
Definition cutoff10 : Z := maxUint64 / 10 + 1.

(** The digit loop of [strconv.ParseUint(s, 10, 64)]. *)
Fixpoint parse_uint_loop (w : list ascii) (n : Z) : Z * option NumError :=
  match w with
  | [] => (n, None)
  | a :: w' =>
      if is_digit a then
        if (cutoff10 <=? n)%Z then (maxUint64, Some ErrRange)
        else
          let n1 := (n * 10 + Z.of_nat (code a - 48))%Z in
          if (maxUint64 <? n1)%Z then (maxUint64, Some ErrRange)
          else parse_uint_loop w' n1
      else (0%Z, Some ErrSyntax)
  end.

Definition ParseUint (w : list ascii) : Z * option NumError :=
  match w with
  | [] => (0%Z, Some ErrSyntax)
  | _ => parse_uint_loop w 0
  end.

(** [strconv.ParseInt(s, 10, 0)], which [strconv.Atoi] computes. *)
Definition ParseInt (s : string) : Z * option NumError :=
  let w := list_ascii_of_string s in
  match w with
  | [] => (0%Z, Some ErrSyntax)
  | a :: w' =>
      let '(neg, body) :=
        if Ascii.eqb a "+"%char then (false, w')
        else if Ascii.eqb a "-"%char then (true, w')
        else (false, w) in
      let '(un, err) := ParseUint body in
      match err with
      | Some ErrSyntax => (0%Z, err)
      | _ =>
        let cut := (2 ^ 63)%Z in
        if negb neg && (cut <=? un)%Z then ((cut - 1)%Z, Some ErrRange)
        else if neg && (cut <? un)%Z then ((- cut)%Z, Some ErrRange)
        else ((if neg then - un else un)%Z, err)
      end
  end.

Definition Atoi (s : string) : Z * option NumError := ParseInt s.

(* ================================================================= *)
(** ** Regular expressions (Go [regexp], leftmost-first) *)

Module Regexp.

(** Syntax after parsing: a character class is its membership test;
    [Star true] is greedy, [Star false] is lazy; [Group n] is the
    capturing group with index [n] (Go numbers groups by their opening
    parenthesis, starting at 1). *)
Inductive re : Type :=
| Chr (f : ascii -> bool)
| Eps
| Bol                      (* ^ : beginning of text *)
| Eol                      (* $ : end of text *)
| Seq (r1 r2 : re)
| Alt (r1 r2 : re)
| Star (greedy : bool) (r : re)
| Group (n : nat) (r : re).

(** Captures: the latest entry for a group wins. *)
Definition caps := list (nat * (nat * nat)).

Fixpoint cap_lookup (n : nat) (c : caps) : option (nat * nat) :=
  match c with
  | [] => None
  | (m, p) :: c' => if Nat.eqb n m then Some p else cap_lookup n c'
  end.

(** A matcher state: position, the input from that position on, captures. *)
Definition mstate := (nat * list ascii * caps)%type.

(** The iterations of a star: every iteration must consume input; the
    results come in the order a backtracking matcher tries them. *)
Fixpoint star_run (g : bool) (step : nat -> list ascii -> caps -> list mstate)
    (fuel : nat) (i : nat) (w : list ascii) (c : caps) : list mstate :=
  match fuel with
  | O => [(i, w, c)]
  | S f =>
      let more :=
        flat_map (fun '(j, w', c') => if Nat.ltb i j then star_run g step f j w' c' else [])
                 (step i w c) in
      if g then more ++ [(i, w, c)] else (i, w, c) :: more
  end.

(** [mt r i w c]: all the ways [r] matches at position [i] (remaining input
    [w]), in priority order. *)
Fixpoint mt (r : re) (i : nat) (w : list ascii) (c : caps) : list mstate :=
  match r with
  | Chr f => match w with
             | a :: w' => if f a then [(S i, w', c)] else []
             | [] => []
             end
  | Eps => [(i, w, c)]
  | Bol => if Nat.eqb i 0 then [(i, w, c)] else []
  | Eol => match w with [] => [(i, w, c)] | _ => [] end
  | Seq r1 r2 => flat_map (fun '(j, w', c') => mt r2 j w' c') (mt r1 i w c)
  | Alt r1 r2 => mt r1 i w c ++ mt r2 i w c
  | Star g r1 => star_run g (mt r1) (S (length w)) i w c
  | Group n r1 => map (fun '(j, w', c') => (j, w', (n, (i, j)) :: c')) (mt r1 i w c)
  end.

(** A match: start, end, captures. *)
Record match_ := mkMatch { m_start : nat; m_end : nat; m_caps : caps }.

(** The leftmost match starting at [pos] or later (unanchored search);
    [n] bounds the number of start positions tried. *)
Fixpoint search_n (r : re) (n pos : nat) (w : list ascii) : option match_ :=
  match mt r pos w [] with
  | (e, _, c) :: _ => Some (mkMatch pos e c)
  | [] => match n, w with
          | S n', _ :: w' => search_n r n' (S pos) w'
          | _, _ => None
          end
  end.

Definition search (r : re) (s : list ascii) (pos : nat) : option match_ :=
  search_n r (length s) pos (skipn pos s).

(** [allMatches] of Go's [regexp] with [n = -1]: after an empty match the
    search moves on by one byte, and an empty match right after the
    previous match is dropped. *)
Fixpoint all_matches_aux (r : re) (s : list ascii) (fuel pos : nat) (prev : option nat)
    : list match_ :=
  match fuel with
  | O => []
  | S f =>
      if Nat.ltb (length s) pos then [] else
      match search r s pos with
      | None => []
      | Some m =>
          if Nat.eqb (m_end m) pos then
            let rest := all_matches_aux r s f (S pos) (Some (m_end m)) in
            match prev with
            | Some p => if Nat.eqb (m_start m) p then rest else m :: rest
            | None => m :: rest
            end
          else m :: all_matches_aux r s f (m_end m) (Some (m_end m))
      end
  end.

Definition FindAll (r : re) (s : string) : list match_ :=
  let w := list_ascii_of_string s in
  all_matches_aux r w (S (length w)) 0 None.

(** [FindStringSubmatch]: the first match. *)
Definition FindFirst (r : re) (s : string) : option match_ :=
  search r (list_ascii_of_string s) 0.

Definition MatchString (r : re) (s : string) : bool :=
  match FindFirst r s with Some _ => true | None => false end.

(** The text of group [n] in a match of [s]; an unmatched group gives "",
    as in the [[]string] Go returns. *)
Definition group (s : string) (m : match_) (n : nat) : string :=
  match cap_lookup n (m_caps m) with
  | Some (a, b) => string_of_list_ascii (firstn (b - a) (skipn a (list_ascii_of_string s)))
  | None => ""
  end.

(** Building blocks. *)
Definition lit (a : ascii) : re := Chr (fun b => Ascii.eqb b a).
(** A literal under [(?i)]: both ASCII cases. *)
Definition ilit (a : ascii) : re :=
  Chr (fun b => Ascii.eqb b a || Ascii.eqb b (to_lower a) || Ascii.eqb b (to_upper a)).
Fixpoint istr_l (l : list ascii) : re :=
  match l with
  | [] => Eps
  | [a] => ilit a
  | a :: l' => Seq (ilit a) (istr_l l')
  end.
Definition istr (s : string) : re := istr_l (list_ascii_of_string s).
Definition class (l : string) : re := Chr (fun b => in_cutset l b).
Definition nclass (l : string) : re := Chr (fun b => negb (in_cutset l b)).
Definition dot : re := Chr (fun b => negb (Ascii.eqb b (chr 10))).
Definition digit : re := Chr is_digit.
Definition star (r : re) : re := Star true r.
Definition lazy (r : re) : re := Star false r.
Definition plus (r : re) : re := Seq r (Star true r).
Definition opt (r : re) : re := Alt r Eps.
Fixpoint seqs (l : list re) : re :=
  match l with
  | [] => Eps
  | [r] => r
  | r :: l' => Seq r (seqs l')
  end.
Fixpoint alts (l : list re) : re :=
  match l with
  | [] => Eps
  | [r] => r
  | r :: l' => Alt r (alts l')
  end.

End Regexp.

Import Regexp.

(* ================================================================= *)
(** ** The regular expressions of [ParseSubject] *)

(** A compiled regexp: its program and [SubexpNames()] (index 0 is ""). *)
Record regexp := mkRegexp { prog : re; subexp_names : list string }.

Definition sp : re := lit " "%char.
Definition q : re := lit (chr 34).
(** [[^ <q>\.]]: neither a space, a quote nor a dot (in the regexps
    quoted below, <q> stands for the double quote character, and a
    space separates a star from a closing parenthesis). *)
Definition nq : re := nclass (" " ++ dq ++ ".").

(** The extension shapes [vol\d+\+\d+\.par2?|part\d+\.[^ <q>\.]*|[^ <q>\.]*\.\d+|[^ <q>\.]*]
    ([last] is the final alternative, lazy in [fileWithExtRE]). *)
Definition ext_vol : re :=
  seqs [istr "vol"; plus digit; lit "+"; plus digit; lit "."; istr "par"; opt (ilit "2")].
Definition ext_part : re := seqs [istr "part"; plus digit; lit "."; star nq].
Definition ext_num : re := seqs [star nq; lit "."; plus digit].
Definition ext_alts (last : re) : re := alts [ext_vol; ext_part; ext_num; last].

(** subject.go, line 37:
    [(?i)(?:(?P<remainder>.*?) *(?:(?P<files>(?:<q>?\[|[<[]? * )(?P<file>\d+) */ *(?P<totalfiles>\d+) *(?:\]<q>?|[>\]])?)|(?P<segments><q>?\((?P<segment>\d+) */ *(?P<totalsegments>\d+)\)<q>?))|.*$)] *)
Definition r_numbers : regexp := mkRegexp
  (Alt
     (seqs [Group 1 (lazy dot); star sp;
            Alt (Group 2 (seqs [Alt (Seq (opt q) (lit "[")) (Seq (opt (class "<[")) (star sp));
                                Group 3 (plus digit); star sp; lit "/"; star sp;
                                Group 4 (plus digit); star sp;
                                opt (Alt (Seq (lit "]") (opt q)) (class ">]"))]))
                (Group 5 (seqs [opt q; lit "("; Group 6 (plus digit); star sp; lit "/"; star sp;
                                Group 7 (plus digit); lit ")"; opt q]))])
     (Seq (star dot) Eol))
  [""; "remainder"; "files"; "file"; "totalfiles"; "segments"; "segment"; "totalsegments"].

(** subject.go, line 113:
    [(?i)(?:(?P<remainder1>.*?) *(?P<files>(?:\[|[<[]? *(?:file|datei)?) *(?P<file>\d+) *(?:of|von) *(?P<totalfiles>\d+) *(?:\]|[>\]])?)(?P<remainder2>.*$))] *)
Definition r_of : regexp := mkRegexp
  (seqs [Group 1 (lazy dot); star sp;
         Group 2 (seqs [Alt (lit "[") (seqs [opt (class "<["); star sp;
                                             opt (Alt (istr "file") (istr "datei"))]);
                        star sp; Group 3 (plus digit); star sp; Alt (istr "of") (istr "von");
                        star sp; Group 4 (plus digit); star sp; opt (Alt (lit "]") (class ">]"))]);
         Group 5 (Seq (star dot) Eol)])
  [""; "remainder1"; "files"; "file"; "totalfiles"; "remainder2"].

(** subject.go, line 130:
    [(?i)^(?P<header>.*?)?[- ]*<q>+(?P<filename>(?P<basefilename>.*?)(?:\.(?P<extension>(?:7z\.)?(?:EXT)))?)<q>+] *)
Definition r_quoted : regexp := mkRegexp
  (seqs [Bol; opt (Group 1 (lazy dot)); star (class "- "); plus q;
         Group 2 (Seq (Group 3 (lazy dot))
                      (opt (Seq (lit ".") (Group 4 (Seq (opt (istr "7z.")) (ext_alts (star nq)))))));
         plus q])
  [""; "header"; "filename"; "basefilename"; "extension"].

(** subject.go, line 138:
    [(?i)^(?P<filename>(?P<basefilename>.*?)\.(?P<extension>(?:EXT))(?:[<q> ]|$))] *)
Definition r_unquoted : regexp := mkRegexp
  (Seq Bol (Group 1 (seqs [Group 2 (lazy dot); lit "."; Group 3 (ext_alts (star nq));
                           Alt (class (dq ++ " ")) Eol])))
  [""; "filename"; "basefilename"; "extension"].

(** subject.go, lines 156 and 188: [<q>([^\<q>]+)<q>] *)
Definition quoteRE : re := seqs [q; Group 1 (plus (nclass dq)); q].

(** subject.go, line 160:
    [(?i)^(?P<basefilename>.*?)\.(?:7z\.)?(?:vol\d+\+\d+\.par2?|part\d+\.[^ <q>\.]*|[^ <q>\.]*\.\d+|[^ <q>\.]*?)$] *)
Definition fileWithExtRE : re :=
  seqs [Bol; Group 1 (lazy dot); lit "."; opt (istr "7z."); ext_alts (lazy nq); Eol].

(** subject.go, line 201: [(?i)r\d{2}$] *)
Definition dynamicArchiveRE : re := seqs [ilit "r"; digit; digit; Eol].

(** subject.go, line 198: the known extensions. *)
Definition known : list string :=
  ["rar"; "r00"; "r01"; "r02"; "par2"; "nfo"; "sfv"; "zip"; "7z"; "mp4"; "mkv"; "avi";
   "mov"; "mp3"; "flac"; "m4a"; "jpg"; "jpeg"; "png"; "gif"; "pdf"; "txt"; "r03"; "r04"; "r05"].

(** subject.go, line 203:
    [(?i)^(?P<base>.+?)\.(?P<ext>(?:vol\d+\+\d+\.par2|par2|part\d+\.rar|r\d{2}|rar|nfo|...|txt))$] *)
Definition candidateRE : re :=
  seqs [Bol; Group 1 (Seq dot (lazy dot)); lit ".";
        Group 2 (alts ([seqs [istr "vol"; plus digit; lit "+"; plus digit; lit "."; istr "par2"];
                        istr "par2";
                        seqs [istr "part"; plus digit; lit "."; istr "rar"];
                        seqs [ilit "r"; digit; digit]] ++
                       map istr ["rar"; "nfo"; "sfv"; "zip"; "7z"; "mp4"; "mkv"; "avi"; "mov";
                                 "mp3"; "flac"; "m4a"; "jpg"; "jpeg"; "png"; "gif"; "pdf"; "txt"]));
        Eol].

(** subject.go, line 227:
    [^(?: *(?:<q>?\[|[<[]?)\d+ */ *\d+ *(?:\]<q>?|[>\]])?)+ *(?P<tail>.* )$] *)
Definition leadBrackets : re :=
  seqs [Bol;
        plus (seqs [star sp; Alt (Seq (opt q) (lit "[")) (opt (class "<[")); plus digit;
                    star sp; lit "/"; star sp; plus digit; star sp;
                    opt (Alt (Seq (lit "]") (opt q)) (class ">]"))]);
        star sp; Group 1 (star dot); Eol].

(** subject.go, line 240:
    [(?i)<q>+(?P<filename>(?P<basefilename>.*?)(?:\.(?P<extension>(?:7z\.)?(?:EXT)))?)<q>+] *)
Definition tailQuoteRE : re :=
  seqs [plus q;
        Group 1 (Seq (Group 2 (lazy dot))
                     (opt (Seq (lit ".") (Group 3 (Seq (opt (istr "7z.")) (ext_alts (star nq)))))));
        plus q].

(* ================================================================= *)
(** ** [findAllNamedMatches] *)

(** A [map[string]string] from group names to the matched text. *)
Definition named_match := list (string * string).

(** Map lookup; a missing key gives the zero value "". *)
Definition mget (m : named_match) (k : string) : string :=
  match find (fun kv => String.eqb (fst kv) k) m with
  | Some (_, v) => v
  | None => ""
  end.

Definition name_groups (s : string) (m : match_) (names : list string) : named_match :=
  fold_right (fun '(y, name) acc => if String.eqb name "" then acc else (name, group s m y) :: acc)
             [] (combine (seq 0 (length names)) names).

(** An empty result stands for the [nil] map. *)
Definition findAllNamedMatches (rx : regexp) (s : string) : list named_match :=
  map (fun m => name_groups s m (subexp_names rx)) (FindAll (prog rx) s).

(** [FindAllStringSubmatch(s, -1)] of [quoteRE], keeping [quoted[i][1]]. *)
Definition quoted_spans (s : string) : list string :=
  map (fun m => group s m 1) (FindAll quoteRE s).

(* ================================================================= *)
(** ** [ParseSubject] *)

Record Subject := mkSubject {
  Subject' : string;       (* full subject (the Go field [Subject]) *)
  Header : string;
  Filename : string;
  Basefilename : string;
  File : Z;
  TotalFiles : Z;
  Segment : Z;
  TotalSegments : Z }.

(** Field assignments. *)
Definition set_file (sj : Subject) (f tf : Z) : Subject :=
  mkSubject (Subject' sj) (Header sj) (Filename sj) (Basefilename sj) f tf
            (Segment sj) (TotalSegments sj).
Definition set_segment (sj : Subject) (sg ts : Z) : Subject :=
  mkSubject (Subject' sj) (Header sj) (Filename sj) (Basefilename sj) (File sj) (TotalFiles sj)
            sg ts.
Definition set_header (sj : Subject) (h : string) : Subject :=
  mkSubject (Subject' sj) h (Filename sj) (Basefilename sj) (File sj) (TotalFiles sj)
            (Segment sj) (TotalSegments sj).
Definition set_filename (sj : Subject) (fn : string) : Subject :=
  mkSubject (Subject' sj) (Header sj) fn (Basefilename sj) (File sj) (TotalFiles sj)
            (Segment sj) (TotalSegments sj).
Definition set_basefilename (sj : Subject) (b : string) : Subject :=
  mkSubject (Subject' sj) (Header sj) (Filename sj) b (File sj) (TotalFiles sj)
            (Segment sj) (TotalSegments sj).

(** [x, _ = strconv.Atoi(s)]. *)
Definition atoi (s : string) : Z := fst (Atoi s).

Definition nonempty (s : string) : bool := negb (String.eqb s "").

(** One iteration of the loop of lines 42-91 (matches are visited from the
    last to the first); the boolean is [foundNumbers]. *)
Definition number_step (st : Subject * bool) (m : named_match) : Subject * bool :=
  let '(sj, found) := st in
  if Z.eqb (File sj) 0 && Z.eqb (Segment sj) 0 then
    if nonempty (mget m "files") then
      (set_file sj (atoi (mget m "file")) (atoi (mget m "totalfiles")), true)
    else if nonempty (mget m "segments") then
      (set_segment sj (atoi (mget m "segment")) (atoi (mget m "totalsegments")), true)
    else (sj, found)
  else if Z.eqb (TotalFiles sj) 0 || Z.eqb (TotalSegments sj) 0 then
    if nonempty (mget m "files") then
      let sj1 := if negb (Z.eqb (TotalFiles sj) 0)
                 then set_segment sj (File sj) (TotalFiles sj) else sj in
      if Z.eqb (TotalSegments sj1) 0
      then (set_segment sj1 (atoi (mget m "file")) (atoi (mget m "totalfiles")), true)
      else (set_file sj1 (atoi (mget m "file")) (atoi (mget m "totalfiles")), true)
    else if nonempty (mget m "segments") then
      if negb (Z.eqb (TotalSegments sj) 0)
      then (set_file sj (atoi (mget m "segment")) (atoi (mget m "totalsegments")), true)
      else (set_segment sj (atoi (mget m "segment")) (atoi (mget m "totalsegments")), true)
    else (sj, found)
  else (sj, found).

Definition number_loop (ms : list named_match) (sj : Subject) : Subject * bool :=
  fold_left number_step (rev ms) (sj, false).

(** Lines 93-95. *)
Definition combine_remainders (ms : list named_match) : string :=
  fold_left (fun rem m => TrimSpace (rem ++ " " ++ TrimSpace (mget m "remainder"))) ms "".

(** Lines 37-103: the numbers and the remainder. *)
Definition number_pass (sj : Subject) : Subject * string :=
  match findAllNamedMatches r_numbers (Subject' sj) with
  | [] => (sj, Subject' sj)
  | matches =>
      let '(sj', found) := number_loop matches sj in
      let remainder := combine_remainders matches in
      (sj', if negb found && String.eqb (TrimSpace remainder) "" then Subject' sj else remainder)
  end.

(** Lines 105-109. *)
Definition segment_default (sj : Subject) : Subject :=
  if Z.eqb (TotalSegments sj) 0 then set_segment sj 1 1 else sj.

(** [matches != nil && matches[0]["files"] != ""] for the "x of y" regexp. *)
Definition of_match (remainder : string) : option named_match :=
  match findAllNamedMatches r_of remainder with
  | m :: _ => if nonempty (mget m "files") then Some m else None
  | [] => None
  end.

(** Lines 111-124. *)
Definition of_pass (sj : Subject) (remainder : string) : Subject * string :=
  if Z.eqb (TotalFiles sj) 0 then
    match of_match remainder with
    | Some m =>
        (set_file sj (atoi (mget m "file")) (atoi (mget m "totalfiles")),
         TrimSpace (TrimSpace (mget m "remainder1") ++ " " ++ TrimSpace (mget m "remainder2")))
    | None => (set_file sj 1 1, remainder)
    end
  else (sj, remainder).

(** Lines 130-150. *)
Definition filename_pass (sj : Subject) (remainder : string) : Subject :=
  match findAllNamedMatches r_quoted remainder with
  | m :: _ =>
      set_basefilename
        (set_filename (set_header sj (Trim (mget m "header") " -")) (Trim (mget m "filename") " -"))
        (Trim (mget m "basefilename") " -")
  | [] =>
      match findAllNamedMatches r_unquoted remainder with
      | m :: _ =>
          set_basefilename (set_filename sj (Trim (mget m "filename") " -"))
                           (Trim (mget m "basefilename") " -")
      | [] =>
          if Z.eqb (TotalFiles sj) 1
          then set_basefilename (set_filename sj (Trim remainder " -")) (Trim remainder " -")
          else sj
      end
  end.

(** The loop of lines 161-182 over [quoted[1:]] ([first] is [quoted[0][1]]);
    the [basefilename] group of [fileWithExtRE] is group 1. *)
Fixpoint dual_quote_loop (sj : Subject) (first : string) (qs : list string) : Subject :=
  match qs with
  | [] => sj
  | qt :: qs' =>
      let candidate := TrimSpace qt in
      match FindFirst fileWithExtRE candidate with
      | Some m =>
          let sj1 := set_basefilename (set_filename sj candidate) (Trim (group candidate m 1) " -") in
          if String.eqb (Header sj1) "" then set_header sj1 (Trim first " -") else sj1
      | None => dual_quote_loop sj first qs'
      end
  end.

(** Lines 155-184. *)
Definition dual_quote_pass (sj : Subject) (remainder : string) : Subject :=
  if nonempty (Filename sj) && String.eqb (Filename sj) (Basefilename sj) then
    match quoted_spans remainder with
    | first :: ((_ :: _) as rest) => dual_quote_loop sj first rest
    | _ => sj
    end
  else sj.

(** The loop of lines 204-215. *)
Fixpoint refine_loop (sj : Subject) (first : string) (qs : list string) : Subject :=
  match qs with
  | [] => sj
  | qt :: qs' =>
      let cand := TrimSpace qt in
      match FindFirst candidateRE cand with
      | Some m =>
          let sj1 :=
            if String.eqb (Header sj) "" || String.eqb (Header sj) (Basefilename sj)
               || EqualFold (Header sj) (Filename sj)
            then set_header sj (Trim first " -") else sj in
          set_basefilename (set_filename sj1 cand) (Trim (group cand m 1) " -")
      | None => refine_loop sj first qs'
      end
  end.

(** The extension after the last dot, lower-cased (lines 192-197). *)
Definition current_ext (cur : string) : string :=
  let idx := LastIndexByte cur "." in
  if Z.eqb idx (-1) then "" else ToLower (slice_from cur (Z.to_nat idx + 1)).

(** Lines 187-218. *)
Definition refine_pass (sj : Subject) (remainder : string) : Subject :=
  if nonempty (Filename sj) then
    match quoted_spans remainder with
    | first :: ((_ :: _) as rest) =>
        let curExt := current_ext (Filename sj) in
        let curKnown := existsb (String.eqb curExt) known in
        let isDynamicArchive := MatchString dynamicArchiveRE curExt in
        if negb curKnown && negb isDynamicArchive then refine_loop sj first rest else sj
    | _ => sj
    end
  else sj.

(** Lines 221-223. *)
Definition header_backfill (sj : Subject) : Subject :=
  if String.eqb (Header sj) "" && nonempty (Basefilename sj)
  then set_header sj (Basefilename sj) else sj.

(** Lines 226-256; the [tail] group of [leadBrackets] is group 1, and the
    [filename] and [basefilename] groups of [tailQuoteRE] are 1 and 2. *)
Definition lead_bracket_pass (sj : Subject) : Subject :=
  if String.eqb (Filename sj) "" then
    match FindFirst leadBrackets (Subject' sj) with
    | Some m =>
        let tail := TrimSpace (group (Subject' sj) m 1) in
        match FindFirst tailQuoteRE tail with
        | Some qm =>
            let sj1 := set_basefilename (set_filename sj (Trim (group tail qm 1) " -"))
                                        (Trim (group tail qm 2) " -") in
            if String.eqb (Header sj1) "" then set_header sj1 (Basefilename sj1) else sj1
        | None => sj
        end
    | None => sj
    end
  else sj.

(** A Go [error]; [None] is [nil]. *)
Definition error := option string.

(** Line 24: [Subject{Subject: strings.TrimSpace(s)}]. *)
Definition initial_subject (s : string) : Subject := mkSubject (TrimSpace s) "" "" "" 0 0 0 0.

Definition ParseSubject (s : string) : Subject * error :=
  let sj0 := initial_subject s in
  let '(sj1, rem1) := number_pass sj0 in
  let sj2 := segment_default sj1 in
  let '(sj3, remainder) := of_pass sj2 rem1 in
  let sj4 := filename_pass sj3 remainder in
  let sj5 := dual_quote_pass sj4 remainder in
  let sj6 := refine_pass sj5 remainder in
  let sj7 := header_backfill sj6 in
  let sj8 := lead_bracket_pass sj7 in
  (sj8, None).

(** The remainder the numbering pass (lines 37-103) leaves for the
    later passes. *)
Definition numbering_remainder (s : string) : string := snd (number_pass (initial_subject s)).

(** No match of the numbering regexp found a [files] or [segments] pair. *)
Definition no_pair_matched (s : string) : Prop :=
  Forall (fun m => mget m "files" = "" /\ mget m "segments" = "")
         (findAllNamedMatches r_numbers (TrimSpace s)).

(* ================================================================= *)
(** ** The NZB structures of [nzbparser.go] *)

(** A Go [int] / [int64] sum: 64-bit two's complement wrap-around. *)
Definition wrap64 (z : Z) : Z := ((z + 2 ^ 63) mod 2 ^ 64 - 2 ^ 63)%Z.

Module NzbSegment.
Record t := mk { Bytes : Z; Number : Z; ID : string }.
Definition set_ID (s : t) (id : string) : t := mk (Bytes s) (Number s) id.
End NzbSegment.

Module NzbFile.
Record t := mk {
  Groups : list string;
  Segments : list NzbSegment.t;
  Poster : string;
  Date : Z;
  Subject : string;
  Bytes : Z;
  FileHash : string;
  Number : Z;
  Filename : string;
  Basefilename : string;
  TotalSegments : Z }.
Definition set_Number (f : t) (n : Z) : t :=
  mk (Groups f) (Segments f) (Poster f) (Date f) (Subject f) (Bytes f) (FileHash f) n
     (Filename f) (Basefilename f) (TotalSegments f).
Definition set_Filename (f : t) (fn : string) : t :=
  mk (Groups f) (Segments f) (Poster f) (Date f) (Subject f) (Bytes f) (FileHash f) (Number f)
     fn (Basefilename f) (TotalSegments f).
Definition set_Segments (f : t) (ss : list NzbSegment.t) : t :=
  mk (Groups f) ss (Poster f) (Date f) (Subject f) (Bytes f) (FileHash f) (Number f)
     (Filename f) (Basefilename f) (TotalSegments f).
Definition set_TotalSegments (f : t) (n : Z) : t :=
  mk (Groups f) (Segments f) (Poster f) (Date f) (Subject f) (Bytes f) (FileHash f) (Number f)
     (Filename f) (Basefilename f) n.
Definition set_Bytes (f : t) (b : Z) : t :=
  mk (Groups f) (Segments f) (Poster f) (Date f) (Subject f) b (FileHash f) (Number f)
     (Filename f) (Basefilename f) (TotalSegments f).
End NzbFile.

Module Nzb.
Record t := mk {
  Comment : string;
  Meta : gmap string string;
  Files : list NzbFile.t;
  TotalFiles : Z;
  Segments : Z;
  TotalSegments : Z;
  Bytes : Z }.
Definition set_Files (n : t) (fs : list NzbFile.t) : t :=
  mk (Comment n) (Meta n) fs (TotalFiles n) (Segments n) (TotalSegments n) (Bytes n).
End Nzb.

(* ================================================================= *)
(** ** [ScanNzbFile] *)

Section Scan.

(** [html.UnescapeString], a library function. *)
Variable UnescapeString : string -> string.

(** The accumulators of [ScanNzbFile]. *)
Record scan_acc := mkAcc {
  acc_segments : Z; acc_totalSegments : Z; acc_totalBytes : Z; acc_totalFiles : Z }.

(** The segment loop of lines 198-206: [(totalFileSegments, totalBytes,
    totalFileBytes)] and the segments with their IDs unescaped. *)
Fixpoint scan_segments (segs : list NzbSegment.t) (tfs tb tfb : Z)
    : Z * Z * Z * list NzbSegment.t :=
  match segs with
  | [] => (tfs, tb, tfb, [])
  | sg :: segs' =>
      let tfs1 := if (tfs <? NzbSegment.Number sg)%Z then NzbSegment.Number sg else tfs in
      let '(tfs2, tb2, tfb2, segs2) :=
        scan_segments segs' tfs1 (wrap64 (tb + NzbSegment.Bytes sg))
                      (wrap64 (tfb + NzbSegment.Bytes sg)) in
      (tfs2, tb2, tfb2, NzbSegment.set_ID sg (UnescapeString (NzbSegment.ID sg)) :: segs2)
  end.

(** One iteration of the file loop (lines 177-212). *)
Definition scan_file (acc : scan_acc) (file : NzbFile.t) : NzbFile.t * scan_acc :=
  let '(f1, totalFileSegments, totalFiles) :=
    match ParseSubject (NzbFile.Subject file) with
    | (subject, None) =>
        let f0 := NzbFile.set_Number file (File subject) in
        let f0' := if nonempty (Filename subject)
                   then NzbFile.set_Filename f0 (Filename subject)
                   else NzbFile.set_Filename f0 (Header subject) in
        (f0', TotalSegments subject,
         if (acc_totalFiles acc <? TotalFiles subject)%Z then TotalFiles subject
         else acc_totalFiles acc)
    | (_, Some _) => (file, 0%Z, acc_totalFiles acc)
    end in
  let '(tfs, tb, tfb, segs) :=
    scan_segments (NzbFile.Segments file) totalFileSegments (acc_totalBytes acc) 0 in
  (NzbFile.set_Bytes (NzbFile.set_TotalSegments (NzbFile.set_Segments f1 segs) tfs) tfb,
   mkAcc (wrap64 (acc_segments acc + Z.of_nat (length (NzbFile.Segments file))))
         (wrap64 (acc_totalSegments acc + tfs)) tb totalFiles).

Fixpoint scan_files (acc : scan_acc) (files : list NzbFile.t) : list NzbFile.t * scan_acc :=
  match files with
  | [] => ([], acc)
  | f :: fs =>
      let '(f', acc1) := scan_file acc f in
      let '(fs', acc2) := scan_files acc1 fs in
      (f' :: fs', acc2)
  end.

Definition ScanNzbFile (nzb : Nzb.t) : Nzb.t :=
  let '(files, acc) := scan_files (mkAcc 0 0 0 0) (Nzb.Files nzb) in
  let n := Z.of_nat (length (Nzb.Files nzb)) in
  Nzb.mk (Nzb.Comment nzb) (Nzb.Meta nzb) files
         (if (acc_totalFiles acc <? n)%Z then n else acc_totalFiles acc)
         (acc_segments acc) (acc_totalSegments acc) (acc_totalBytes acc).

End Scan.

(* ================================================================= *)
(** ** [MakeUnique] *)

(** The loop of lines 231-239: [fileKeys] is a [map[string]int]. *)
Definition unique_files (files : list NzbFile.t) : list NzbFile.t :=
  snd (fold_left
         (fun (st : gmap string Z * list NzbFile.t) file =>
            let '(fileKeys, uniqueFiles) := st in
            match fileKeys !! NzbFile.Subject file with
            | Some _ => (fileKeys, uniqueFiles)
            | None => (<[NzbFile.Subject file := Z.of_nat (length uniqueFiles)]> fileKeys,
                       (uniqueFiles ++ [file])%list)
            end)
         files (∅, [])).

(** The loop of lines 248-254. *)
Definition unique_segments (segs : list NzbSegment.t) : list NzbSegment.t :=
  snd (fold_left
         (fun (st : gmap string Z * list NzbSegment.t) segment =>
            let '(segmentKeys, uniqueSegments) := st in
            match segmentKeys !! NzbSegment.ID segment with
            | Some _ => (segmentKeys, uniqueSegments)
            | None => (<[NzbSegment.ID segment := Z.of_nat (length uniqueSegments)]> segmentKeys,
                       (uniqueSegments ++ [segment])%list)
            end)
         segs (∅, [])).

Definition MakeUnique (nzb : Nzb.t) : Nzb.t :=
  Nzb.set_Files nzb
    (map (fun file => NzbFile.set_Segments file (unique_segments (NzbFile.Segments file)))
         (unique_files (Nzb.Files nzb))).

(** The first occurrences of each key, in their order: an element is kept
    when no element before it in [l] has its key. *)
Fixpoint first_occ_from {A} (key : A -> string) (before l : list A) : list A :=
  match l with
  | [] => []
  | x :: l' =>
      ((if existsb (fun y => String.eqb (key y) (key x)) before then [] else [x])
       ++ first_occ_from key (before ++ [x]) l')%list
  end.

Definition first_occurrences {A} (key : A -> string) (l : list A) : list A :=
  first_occ_from key [] l.

(* ================================================================= *)
(** ** [ParseWithOptions] after decoding, and [Write] *)

(** [ParseOptions]. *)
Record ParseOptions := mkParseOptions { RemoveDuplicates : bool }.

(** The temporary structures [xNzbMeta] and [xNzb] (lines 261-274);
    [XMLName] carries no data and is left out. *)
Module xNzbMeta.
Record t := mk { Type' : string; Value : string }.
End xNzbMeta.

Module xNzb.
Record t := mk {
  Comment : string;
  Xmlns : string;
  Metadata : list xNzbMeta.t;
  Files : list NzbFile.t }.
End xNzb.

(** The namespace constant [Xmlns]. *)
Definition Xmlns : string := "http://www.newzbin.com/DTD/2003/nzb".

(** The metadata loop of lines 108-112: [nzb.Meta[md.Type] = md.Value]. *)
Definition convert_meta (md : list xNzbMeta.t) : gmap string string :=
  fold_left (fun meta x => <[xNzbMeta.Type' x := xNzbMeta.Value x]> meta) md ∅.

(** [sort.Sort] with [Less] comparing [key]: Go's sort is not stable, so
    it is described by what it guarantees, a permutation of its input in
    which no element is [Less] than the one before it. *)
Definition sort_Sort {A} (key : A -> Z) (l l' : list A) : Prop :=
  Permutation l l' /\ Sorted (fun a b => (key a <= key b)%Z) l'.

Section Parse.

(** [html.UnescapeString], as for [ScanNzbFile]. *)
Variable UnescapeString : string -> string.

(** Lines 101-120 of [ParseWithOptions], from the decoded [xnzb] to the
    [nzb] before sorting: [new(Nzb)] zeroes the counters, [MakeUnique]
    runs when [opts.RemoveDuplicates] is set, then [ScanNzbFile]. *)
Definition parse_convert (opts : ParseOptions) (xnzb : xNzb.t) : Nzb.t :=
  let nzb := Nzb.mk (xNzb.Comment xnzb) (convert_meta (xNzb.Metadata xnzb)) (xNzb.Files xnzb)
                    0 0 0 0 in
  let nzb := if RemoveDuplicates opts then MakeUnique nzb else nzb in
  ScanNzbFile UnescapeString nzb.

(** The [nzb] [ParseWithOptions] returns after a successful decode of
    [xnzb]: lines 122-127 sort the files by [Number] ([Less], line 42),
    then the segments of each file by [Number] (line 64); everything else
    is [parse_convert]'s. *)
Definition ParseWithOptions_result (opts : ParseOptions) (xnzb : xNzb.t) (res : Nzb.t) : Prop :=
  let nzb := parse_convert opts xnzb in
  Nzb.Comment res = Nzb.Comment nzb /\ Nzb.Meta res = Nzb.Meta nzb /\
  Nzb.TotalFiles res = Nzb.TotalFiles nzb /\ Nzb.Segments res = Nzb.Segments nzb /\
  Nzb.TotalSegments res = Nzb.TotalSegments nzb /\ Nzb.Bytes res = Nzb.Bytes nzb /\
  exists files, sort_Sort NzbFile.Number (Nzb.Files nzb) files /\
    Forall2 (fun f g => exists segs, sort_Sort NzbSegment.Number (NzbFile.Segments f) segs /\
                                     g = NzbFile.set_Segments f segs)
            files (Nzb.Files res).

End Parse.

(** Lines 140-156 of [Write], up to the marshalling. [meta_order] lists
    the entries of [nzb.Meta] in the order [range] visits them, which Go
    leaves unspecified. *)
Definition write_xnzb (nzb : Nzb.t) (meta_order : list (string * string)) : xNzb.t :=
  xNzb.mk (if nonempty (Nzb.Comment nzb) then " " ++ Nzb.Comment nzb ++ " " else "")
          Xmlns
          (map (fun '(t, v) => xNzbMeta.mk t v) meta_order)
          (Nzb.Files nzb).

(* ================================================================= *)
(** * Predicates and examples the proofs speak of *)

Definition same_numbers (a b : Subject) : Prop :=
  File a = File b /\ TotalFiles a = TotalFiles b /\ Segment a = Segment b
  /\ TotalSegments a = TotalSegments b.

(** The passes after the numbering, as [ParseSubject] runs them. *)
Definition name_passes (sj : Subject) (rem : string) : Subject :=
  lead_bracket_pass (header_backfill (refine_pass (dual_quote_pass (filename_pass sj rem) rem) rem)).

(** Every character class of [r] lies within [p]. *)
Fixpoint chars_within (p : ascii -> bool) (r : re) : Prop :=
  match r with
  | Chr f => forall a, f a = true -> p a = true
  | Eps | Bol | Eol => True
  | Seq r1 r2 | Alt r1 r2 => chars_within p r1 /\ chars_within p r2
  | Star _ r1 | Group _ r1 => chars_within p r1
  end.

(** Every group [n] of [r] with [D n] matches digits only. *)
Fixpoint digit_groups (D : nat -> bool) (r : re) : Prop :=
  match r with
  | Chr _ | Eps | Bol | Eol => True
  | Seq r1 r2 | Alt r1 r2 => digit_groups D r1 /\ digit_groups D r2
  | Star _ r1 => digit_groups D r1
  | Group n r1 => (D n = true -> chars_within is_digit r1) /\ digit_groups D r1
  end.

(** A match consumes a prefix [u] of the input, made of characters of [p]
    when all classes of [r] lie within [p]. *)
Definition consumed (p : ascii -> bool) (i : nat) (w : list ascii) (st : mstate) : Prop :=
  let '(j, w', _) := st in
  exists u, w = (u ++ w')%list /\ j = i + length u /\ forallb p u = true.

Section Captures_def.

Variable s : list ascii.
Variable D : nat -> bool.

(** The captures of the groups in [D] hold digits of [s]. *)
Definition caps_ok (c : caps) : Prop :=
  forall n a b, In (n, (a, b)) c -> D n = true ->
                forallb is_digit (firstn (b - a) (skipn a s)) = true.

Definition state_ok (st : mstate) : Prop :=
  let '(j, w, c) := st in w = skipn j s /\ caps_ok c.

End Captures_def.

(** The groups [file], [totalfiles], [segment], [totalsegments] of
    [r_numbers] and [file], [totalfiles] of [r_of]. *)
Definition numbers_digit_group (n : nat) : bool :=
  Nat.eqb n 3 || Nat.eqb n 4 || Nat.eqb n 6 || Nat.eqb n 7.
Definition of_digit_group (n : nat) : bool := Nat.eqb n 3 || Nat.eqb n 4.

Definition nonneg_numbers (sj : Subject) : Prop :=
  (0 <= File sj /\ 0 <= TotalFiles sj /\ 0 <= Segment sj /\ 0 <= TotalSegments sj)%Z.

Definition number_match_ok (m : named_match) : Prop :=
  (0 <= atoi (mget m "file") /\ 0 <= atoi (mget m "totalfiles") /\
   0 <= atoi (mget m "segment") /\ 0 <= atoi (mget m "totalsegments"))%Z.

(** The display name [ScanNzbFile] takes from a parsed subject. *)
Definition display_name (sj : Subject) : string :=
  if nonempty (Filename sj) then Filename sj else Header sj.

Definition scanned_from (f0 f : NzbFile.t) : Prop :=
  NzbFile.Subject f = NzbFile.Subject f0 /\
  NzbFile.Number f = File (fst (ParseSubject (NzbFile.Subject f0))) /\
  NzbFile.Filename f = display_name (fst (ParseSubject (NzbFile.Subject f0))).

Section Dedup_def.

Context {A : Type} (key : A -> string).

(** The loop shape shared by the two loops of [MakeUnique]. *)
Definition dedup_step (st : gmap string Z * list A) (x : A) : gmap string Z * list A :=
  let '(keys, uniq) := st in
  match keys !! key x with
  | Some _ => (keys, uniq)
  | None => (<[key x := Z.of_nat (length uniq)]> keys, (uniq ++ [x])%list)
  end.

Definition keys_of (keys : gmap string Z) (before : list A) : Prop :=
  forall k, is_Some (keys !! k) <-> existsb (fun y => String.eqb (key y) k) before = true.

End Dedup_def.

(** Inputs of the worked examples; [dq] is the double quote. *)
Definition subj_round_trip : string :=
  "[1/2] Test Subject - " ++ dq ++ "test.txt" ++ dq ++ " yEnc (1/2)".
Definition subj_shift : string :=
  "[003/120] [03/140] " ++ dq ++ "Release.Name.r03" ++ dq ++ " yEnc".
Definition subj_dual_quote : string :=
  "[04/23] " ++ dq ++ "Release.Name" ++ dq ++ " - " ++ dq ++ "release.name.r00" ++ dq
  ++ " - yEnc(1/140)".
Definition subj_zero_total : string :=
  "Test S01E02 ATVP WEB-DL 1080p DDP5.1 Atmos H264-something.mkv (1/0)".

(** Sums over the integers; the code's sums are these wrapped by [wrap64]. *)
Definition zsum (l : list Z) : Z := fold_right Z.add 0%Z l.

Definition sum_bytes (segs : list NzbSegment.t) : Z := zsum (map NzbSegment.Bytes segs).

(** A segment with its ID unescaped, as line 205 leaves it. *)
Definition unescape_segment (unesc : string -> string) (s : NzbSegment.t) : NzbSegment.t :=
  NzbSegment.set_ID s (unesc (NzbSegment.ID s)).

(** The head of [l], if any, is not trimmed by [p]. *)
Definition head_kept (p : ascii -> bool) (l : list ascii) : Prop :=
  match l with [] => True | a :: _ => p a = false end.

(** The file [scan_file] makes of [f]; it does not depend on the
    accumulators. *)
Definition scanned (unesc : string -> string) (f : NzbFile.t) : NzbFile.t :=
  fst (scan_file unesc (mkAcc 0 0 0 0) f).

(** Sample inputs. *)
Definition demo_segment (n : Z) (id : string) : NzbSegment.t := NzbSegment.mk 100 n id.

Definition demo_file (subject : string) (segs : list NzbSegment.t) : NzbFile.t :=
  NzbFile.mk ["alt.binaries.test"] segs "poster" 0 subject 0 "" 0 "" "" 0.

Definition demo_nzb : Nzb.t :=
  Nzb.mk "" ∅ [demo_file "a" [demo_segment 1 "x"; demo_segment 2 "y"];
               demo_file "b" [demo_segment 1 "z"]] 0 0 0 0.

Definition demo_meta : gmap string string :=
  <["title" := "Demo"]> (<["password" := "secret"]> ∅).

Definition demo_xnzb : xNzb.t :=
  xNzb.mk "" Xmlns [xNzbMeta.mk "title" "A"; xNzbMeta.mk "title" "B"]
    [demo_file "[1/2] a.rar (1/2)" [demo_segment 1 "x"; demo_segment 2 "y"];
     demo_file "[1/2] a.rar (1/2)" [demo_segment 1 "z"];
     demo_file "[2/2] b.rar (1/1)" [demo_segment 1 "w"]].

Definition demo_options : ParseOptions := mkParseOptions true.

(** A stand-in for [html.UnescapeString] on two sample IDs: [a&amp;b]
    unescapes to [a&b]. *)
Definition demo_unescape (s : string) : string := if String.eqb s "a&amp;b" then "a&b" else s.

Definition demo_dup_file : NzbFile.t :=
  demo_file "[2/2] c.rar (1/2)" [demo_segment 1 "a&amp;b"; demo_segment 2 "a&b"].

Definition demo_dup_first : NzbFile.t := demo_file "[1/2] a.rar (1/1)" [demo_segment 1 "x@y"].

Definition demo_dup_later : NzbFile.t := demo_file "[2/2] c.rar (1/2)" [demo_segment 1 "z@w"].

Definition demo_dup_xnzb : xNzb.t :=
  xNzb.mk "" Xmlns [] [demo_dup_first; demo_dup_file; demo_dup_later].

(* ================================================================= *)
(** * Proofs *)

(** ** The later passes keep the numbers *)

Lemma same_numbers_refl sj : same_numbers sj sj.
Proof. repeat split. Qed.

Lemma same_numbers_trans a b c : same_numbers a b -> same_numbers b c -> same_numbers a c.
Proof. unfold same_numbers; intuition congruence. Qed.

Create HintDb nums.
#[local] Hint Resolve same_numbers_refl : nums.

Ltac nums_set := unfold same_numbers, set_header, set_filename, set_basefilename;
                 cbn [File TotalFiles Segment TotalSegments]; repeat split.

Lemma filename_pass_numbers sj rem : same_numbers (filename_pass sj rem) sj.
Proof.
  unfold filename_pass.
  destruct (findAllNamedMatches r_quoted rem); [|nums_set].
  destruct (findAllNamedMatches r_unquoted rem); [|nums_set].
  destruct (Z.eqb (TotalFiles sj) 1); [nums_set | auto with nums].
Qed.

Lemma dual_quote_loop_numbers sj first qs : same_numbers (dual_quote_loop sj first qs) sj.
Proof.
  induction qs as [|qt qs IH]; cbn [dual_quote_loop]; [auto with nums|].
  destruct (FindFirst fileWithExtRE (TrimSpace qt)); [|exact IH].
  destruct (String.eqb _ ""); nums_set.
Qed.

Lemma dual_quote_pass_numbers sj rem : same_numbers (dual_quote_pass sj rem) sj.
Proof.
  unfold dual_quote_pass.
  destruct (nonempty (Filename sj) && String.eqb (Filename sj) (Basefilename sj)); [|auto with nums].
  destruct (quoted_spans rem) as [|first [|x rest]]; auto using dual_quote_loop_numbers with nums.
Qed.

Lemma refine_loop_numbers sj first qs : same_numbers (refine_loop sj first qs) sj.
Proof.
  induction qs as [|qt qs IH]; cbn [refine_loop]; [auto with nums|].
  destruct (FindFirst candidateRE (TrimSpace qt)); [|exact IH].
  destruct (_ || _); nums_set.
Qed.

Lemma refine_pass_numbers sj rem : same_numbers (refine_pass sj rem) sj.
Proof.
  unfold refine_pass.
  destruct (nonempty (Filename sj)); [|auto with nums].
  destruct (quoted_spans rem) as [|first [|x rest]]; auto with nums.
  destruct (_ && _); auto using refine_loop_numbers with nums.
Qed.

Lemma header_backfill_numbers sj : same_numbers (header_backfill sj) sj.
Proof. unfold header_backfill; destruct (_ && _); nums_set. Qed.

Lemma lead_bracket_pass_numbers sj : same_numbers (lead_bracket_pass sj) sj.
Proof.
  unfold lead_bracket_pass.
  destruct (String.eqb (Filename sj) ""); [|auto with nums].
  destruct (FindFirst leadBrackets (Subject' sj)); [|auto with nums].
  destruct (FindFirst tailQuoteRE _); [|auto with nums].
  destruct (String.eqb _ ""); nums_set.
Qed.

Lemma name_passes_numbers sj rem : same_numbers (name_passes sj rem) sj.
Proof.
  unfold name_passes.
  eapply same_numbers_trans; [apply lead_bracket_pass_numbers|].
  eapply same_numbers_trans; [apply header_backfill_numbers|].
  eapply same_numbers_trans; [apply refine_pass_numbers|].
  eapply same_numbers_trans; [apply dual_quote_pass_numbers|].
  apply filename_pass_numbers.
Qed.

Lemma ParseSubject_unfold s :
  ParseSubject s =
  (let '(sj1, rem1) := number_pass (initial_subject s) in
   let '(sj3, rem) := of_pass (segment_default sj1) rem1 in
   (name_passes sj3 rem, None)).
Proof.
  unfold ParseSubject, name_passes.
  destruct (number_pass (initial_subject s)) as [sj1 rem1].
  destruct (of_pass (segment_default sj1) rem1) as [sj3 rem]. reflexivity.
Qed.

(** ** The numbering pass when no pair matches *)

Lemma number_step_idle st m :
  mget m "files" = "" -> mget m "segments" = "" -> number_step st m = st.
Proof.
  intros Hf Hs. destruct st as [sj found]. unfold number_step, nonempty.
  rewrite Hf, Hs. cbn [String.eqb negb].
  destruct (_ && _); [reflexivity|]. destruct (_ || _); reflexivity.
Qed.

Lemma fold_number_step_idle (l : list named_match) st :
  Forall (fun m => mget m "files" = "" /\ mget m "segments" = "") l ->
  fold_left number_step l st = st.
Proof.
  revert st. induction l as [|m l IH]; intros st H; [reflexivity|].
  inversion H as [|? ? [Hf Hs] Hl]; subst. cbn [fold_left].
  rewrite number_step_idle by assumption. apply IH, Hl.
Qed.

Lemma number_pass_idle s :
  no_pair_matched s -> fst (number_pass (initial_subject s)) = initial_subject s.
Proof.
  unfold no_pair_matched, number_pass.
  change (Subject' (initial_subject s)) with (TrimSpace s).
  destruct (findAllNamedMatches r_numbers (TrimSpace s)) as [|m ms]; [reflexivity|].
  intros H. unfold number_loop.
  rewrite fold_number_step_idle by (apply Forall_rev; exact H). reflexivity.
Qed.

Lemma of_pass_segments sj rem :
  Segment (fst (of_pass sj rem)) = Segment sj /\
  TotalSegments (fst (of_pass sj rem)) = TotalSegments sj.
Proof.
  unfold of_pass. destruct (Z.eqb (TotalFiles sj) 0); [|split; reflexivity].
  destruct (of_match rem); split; reflexivity.
Qed.

Lemma segment_default_nonzero sj : TotalSegments (segment_default sj) <> 0%Z.
Proof.
  unfold segment_default. destruct (Z.eqb (TotalSegments sj) 0) eqn:E.
  - cbn. lia.
  - apply Z.eqb_neq, E.
Qed.

Lemma ParseSubject_TotalSegments_nonzero s : TotalSegments (fst (ParseSubject s)) <> 0%Z.
Proof.
  rewrite ParseSubject_unfold.
  destruct (number_pass (initial_subject s)) as [sj1 rem1].
  destruct (of_pass (segment_default sj1) rem1) as [sj3 rem] eqn:E. cbn [fst].
  destruct (name_passes_numbers sj3 rem) as (_ & _ & _ & ->).
  destruct (of_pass_segments (segment_default sj1) rem1) as [_ Hts].
  rewrite E in Hts. cbn [fst] in Hts. rewrite Hts. apply segment_default_nonzero.
Qed.

(** ** Header and base filename *)

Lemma header_backfill_inv sj :
  Header (header_backfill sj) = "" -> Basefilename (header_backfill sj) = "".
Proof.
  unfold header_backfill, nonempty.
  destruct (String.eqb (Header sj) "") eqn:Eh;
    destruct (String.eqb (Basefilename sj) "") eqn:Eb; cbn; intros H.
  - apply String.eqb_eq, Eb.
  - exact H.
  - apply String.eqb_eq, Eb.
  - rewrite H in Eh. discriminate.
Qed.

Lemma lead_bracket_pass_inv sj :
  (Header sj = "" -> Basefilename sj = "") ->
  Header (lead_bracket_pass sj) = "" -> Basefilename (lead_bracket_pass sj) = "".
Proof.
  intros Hinv. unfold lead_bracket_pass.
  destruct (String.eqb (Filename sj) ""); [|exact Hinv].
  destruct (FindFirst leadBrackets (Subject' sj)); [|exact Hinv].
  destruct (FindFirst tailQuoteRE _); [|exact Hinv].
  match goal with |- context [if String.eqb (Header ?x) "" then _ else _] =>
    destruct (String.eqb (Header x) "") eqn:E end.
  - cbn. intros H. exact H.
  - intros H. rewrite H in E. discriminate.
Qed.

(** ** What the matcher consumes and captures *)

Open Scope list_scope.

Lemma chars_within_true r : chars_within (fun _ => true) r.
Proof. induction r; cbn; auto. Qed.

Lemma star_run_inv (I : mstate -> Prop) g step fuel i w c st :
  (forall i w c st, I (i, w, c) -> In st (step i w c) -> I st) ->
  I (i, w, c) -> In st (star_run g step fuel i w c) -> I st.
Proof.
  intros Hstep. revert i w c. induction fuel as [|f IH]; intros i w c Hi Hin; cbn in Hin.
  - destruct Hin as [<-|[]]. exact Hi.
  - assert (Hmore : In st (flat_map (fun '(j, w', c') =>
                       if Nat.ltb i j then star_run g step f j w' c' else []) (step i w c)) ->
                    I st).
    { intros Hm. apply in_flat_map in Hm as [[[j w'] c'] [Hx Hy]].
      destruct (Nat.ltb i j); [|destruct Hy].
      eapply IH; [|exact Hy]. eapply Hstep; eassumption. }
    destruct g.
    + apply in_app_or in Hin as [Hin|[<-|[]]]; auto.
    + destruct Hin as [<-|Hin]; auto.
Qed.

Lemma mt_consumed p r : chars_within p r ->
  forall i w c st, In st (mt r i w c) -> consumed p i w st.
Proof.
  induction r as [f| | | |r1 IH1 r2 IH2|r1 IH1 r2 IH2|g r1 IH|n r1 IH]; cbn [chars_within mt];
    intros Hp i w c st Hin.
  - destruct w as [|a w]; [destruct Hin|].
    destruct (f a) eqn:Ef; [|destruct Hin]. destruct Hin as [<-|[]].
    exists [a]. cbn. rewrite (Hp a Ef). split; [reflexivity|split; [lia|reflexivity]].
  - destruct Hin as [<-|[]]. exists []. cbn. split; [reflexivity|split; [lia|reflexivity]].
  - destruct (Nat.eqb i 0); [|destruct Hin]. destruct Hin as [<-|[]].
    exists []. cbn. split; [reflexivity|split; [lia|reflexivity]].
  - destruct w; [|destruct Hin]. destruct Hin as [<-|[]].
    exists []. cbn. split; [reflexivity|split; [lia|reflexivity]].
  - destruct Hp as [Hp1 Hp2].
    apply in_flat_map in Hin as [[[j1 w1] c1] [H1 H2]].
    destruct (IH1 Hp1 _ _ _ _ H1) as (u1 & -> & -> & Hu1).
    destruct st as [[j w'] c']. destruct (IH2 Hp2 _ _ _ _ H2) as (u2 & -> & -> & Hu2).
    exists (u1 ++ u2). rewrite <- app_assoc, length_app, forallb_app, Hu1, Hu2.
    split; [reflexivity|split; [lia|reflexivity]].
  - destruct Hp as [Hp1 Hp2]. apply in_app_or in Hin as [Hin|Hin]; eauto.
  - eapply (star_run_inv (consumed p i w)); [| |exact Hin].
    + intros i1 w1 c1 st1 (u1 & -> & -> & Hu1) Hst.
      destruct st1 as [[j w'] c']. destruct (IH Hp _ _ _ _ Hst) as (u2 & -> & -> & Hu2).
      exists (u1 ++ u2). rewrite <- app_assoc, length_app, forallb_app, Hu1, Hu2.
      split; [reflexivity|split; [lia|reflexivity]].
    + exists []. cbn. split; [reflexivity|split; [lia|reflexivity]].
  - apply in_map_iff in Hin as [[[j w'] c'] [<- Hin]].
    exact (IH Hp _ _ _ _ Hin).
Qed.

Section Captures.

Variable s : list ascii.
Variable D : nat -> bool.

Lemma skipn_after (i : nat) (u w : list ascii) :
  u ++ w = skipn i s -> w = skipn (i + length u) s.
Proof.
  intros H. rewrite Nat.add_comm, <- skipn_skipn, <- H, skipn_app, skipn_all,
    Nat.sub_diag. reflexivity.
Qed.

Lemma mt_state_ok r : digit_groups D r ->
  forall i w c st, state_ok s D (i, w, c) -> In st (mt r i w c) -> state_ok s D st.
Proof.
  induction r as [f| | | |r1 IH1 r2 IH2|r1 IH1 r2 IH2|g r1 IH|n r1 IH]; cbn [digit_groups mt];
    intros HD i w c st Hok Hin.
  - destruct st as [[j w'] c'].
    destruct (mt_consumed _ (Chr f) (chars_within_true (Chr f)) i w c _ Hin) as (u & Hw & -> & _).
    destruct w as [|a w0]; [destruct Hin|]. destruct (f a); [|destruct Hin].
    destruct Hin as [Heq|[]]. injection Heq as _ _ <-.
    destruct Hok as [Hw0 Hc]. split; [|exact Hc]. rewrite Hw in Hw0. apply skipn_after, Hw0.
  - destruct Hin as [<-|[]]. exact Hok.
  - destruct (Nat.eqb i 0); [|destruct Hin]. destruct Hin as [<-|[]]. exact Hok.
  - destruct w; [|destruct Hin]. destruct Hin as [<-|[]]. exact Hok.
  - destruct HD as [HD1 HD2].
    apply in_flat_map in Hin as [[[j1 w1] c1] [H1 H2]].
    eapply IH2; [exact HD2| |exact H2]. eapply IH1; eassumption.
  - destruct HD as [HD1 HD2]. apply in_app_or in Hin as [Hin|Hin]; eauto.
  - eapply star_run_inv; [| |exact Hin]; [|exact Hok].
    intros i1 w1 c1 st1 Hok1 Hst. eapply IH; eassumption.
  - destruct HD as [Hdig HD1].
    apply in_map_iff in Hin as [[[j w'] c'] [<- Hin]].
    destruct (IH HD1 _ _ _ _ Hok Hin) as [Hw' Hc'].
    split; [exact Hw'|].
    intros m a b [Heq|Hm] Hm_D; [|exact (Hc' m a b Hm Hm_D)].
    injection Heq as <- <- <-.
    destruct (mt_consumed _ r1 (Hdig Hm_D) _ _ _ _ Hin) as (u & Hw & -> & Hu).
    destruct Hok as [Hw0 _]. rewrite <- Hw0, Hw.
    replace (i + length u - i) with (length u) by lia.
    rewrite firstn_app, Nat.sub_diag, firstn_all. cbn. rewrite app_nil_r. exact Hu.
Qed.

End Captures.

Lemma search_n_state s r n pos w m :
  w = skipn pos s -> search_n r n pos w = Some m ->
  exists w', In (m_end m, w', m_caps m) (mt r (m_start m) (skipn (m_start m) s) []).
Proof.
  revert pos w. induction n as [|n IH]; intros pos w Hw Hs; cbn [search_n] in Hs;
    destruct (mt r pos w []) as [|[[e w0] c] l] eqn:E.
  - destruct w; discriminate.
  - injection Hs as <-. cbn. exists w0. rewrite <- Hw, E. left. reflexivity.
  - destruct w as [|a w']; [discriminate|].
    eapply IH; [|exact Hs].
    rewrite <- (skipn_skipn 1 pos), <- Hw. reflexivity.
  - injection Hs as <-. cbn. exists w0. rewrite <- Hw, E. left. reflexivity.
Qed.

Lemma all_matches_state r s fuel pos prev m :
  In m (all_matches_aux r s fuel pos prev) ->
  exists w', In (m_end m, w', m_caps m) (mt r (m_start m) (skipn (m_start m) s) []).
Proof.
  revert pos prev. induction fuel as [|f IH]; intros pos prev Hin; cbn [all_matches_aux] in Hin;
    [destruct Hin|].
  destruct (Nat.ltb (length s) pos); [destruct Hin|].
  destruct (search r s pos) as [m'|] eqn:Es; [|destruct Hin].
  pose proof (search_n_state s r _ pos _ m' eq_refl Es) as Hm'.
  destruct (Nat.eqb (m_end m') pos).
  - destruct prev as [p|].
    + destruct (Nat.eqb (m_start m') p); [eauto|].
      destruct Hin as [<-|Hin]; eauto.
    + destruct Hin as [<-|Hin]; eauto.
  - destruct Hin as [<-|Hin]; eauto.
Qed.

Lemma cap_lookup_In n c a b : cap_lookup n c = Some (a, b) -> In (n, (a, b)) c.
Proof.
  induction c as [|[m p] c IH]; cbn; [discriminate|].
  destruct (Nat.eqb n m) eqn:E.
  - intros H. injection H as ->. apply Nat.eqb_eq in E. subst. left. reflexivity.
  - intros H. right. exact (IH H).
Qed.

(** The text of a digit group of a match found by [FindAll] is made of digits. *)
Lemma FindAll_group_digits D r str m n :
  digit_groups D r -> In m (FindAll r str) -> D n = true ->
  forallb is_digit (list_ascii_of_string (group str m n)) = true.
Proof.
  intros HD Hin Hn. unfold FindAll in Hin.
  destruct (all_matches_state _ _ _ _ _ _ Hin) as [w' Hst].
  assert (Hok : state_ok (list_ascii_of_string str) D (m_end m, w', m_caps m)).
  { eapply mt_state_ok; [exact HD| |exact Hst]. split; [reflexivity|].
    intros ? ? ? []. }
  destruct Hok as [_ Hc]. unfold group.
  destruct (cap_lookup n (m_caps m)) as [[a b]|] eqn:E; [|reflexivity].
  rewrite list_ascii_of_string_of_list_ascii.
  exact (Hc n a b (cap_lookup_In _ _ _ _ E) Hn).
Qed.

Open Scope string_scope.

(** ** [strconv.Atoi] on digit strings *)

Lemma parse_uint_loop_nonneg w n : (0 <= n)%Z -> (0 <= fst (parse_uint_loop w n))%Z.
Proof.
  revert n. induction w as [|a w IH]; intros n Hn; cbn [parse_uint_loop]; [exact Hn|].
  destruct (is_digit a); [|cbn; lia].
  destruct (cutoff10 <=? n)%Z; [cbn; unfold maxUint64; lia|].
  destruct (maxUint64 <? _)%Z; [cbn; unfold maxUint64; lia|].
  apply IH. lia.
Qed.

Lemma atoi_digits_nonneg t : forallb is_digit (list_ascii_of_string t) = true -> (0 <= atoi t)%Z.
Proof.
  unfold atoi, Atoi, ParseInt. intros H.
  destruct (list_ascii_of_string t) as [|a w] eqn:E; [cbn; lia|].
  cbn [forallb] in H. apply andb_prop in H as [Ha _].
  assert (Hplus : Ascii.eqb a "+"%char = false) by (destruct a as [[] [] [] [] [] [] [] []]; easy).
  assert (Hminus : Ascii.eqb a "-"%char = false) by (destruct a as [[] [] [] [] [] [] [] []]; easy).
  rewrite Hplus, Hminus.
  assert (Hu : (0 <= fst (ParseUint (a :: w)))%Z) by (apply parse_uint_loop_nonneg; lia).
  destruct (ParseUint (a :: w)) as [un err]. cbn [fst] in Hu.
  destruct err as [[|]|]; cbn [negb andb]; [cbn; lia| |];
    (destruct (2 ^ 63 <=? un)%Z; cbn; lia).
Qed.

(** ** The numbers are non-negative *)

Ltac digit_groups_tac :=
  cbn; repeat first [split | intros ? | discriminate | assumption].

Lemma r_numbers_digit_groups : digit_groups numbers_digit_group (prog r_numbers).
Proof. digit_groups_tac. Qed.

Lemma r_of_digit_groups : digit_groups of_digit_group (prog r_of).
Proof. digit_groups_tac. Qed.

Lemma number_matches_ok str : Forall number_match_ok (findAllNamedMatches r_numbers str).
Proof.
  apply List.Forall_forall. intros nm Hin.
  unfold findAllNamedMatches in Hin. apply in_map_iff in Hin as [m [<- Hm]].
  pose proof (fun n Hn => atoi_digits_nonneg _
               (FindAll_group_digits _ _ _ _ n r_numbers_digit_groups Hm Hn)) as H.
  repeat split; apply H; reflexivity.
Qed.

Lemma number_step_nonneg sj found m :
  nonneg_numbers sj -> number_match_ok m -> nonneg_numbers (fst (number_step (sj, found) m)).
Proof.
  unfold nonneg_numbers, number_match_ok, number_step, set_file, set_segment.
  intros Hs Hm.
  repeat match goal with |- context [if ?b then _ else _] => destruct b end;
    cbn; lia.
Qed.

Lemma number_loop_nonneg ms sj :
  Forall number_match_ok ms -> nonneg_numbers sj -> nonneg_numbers (fst (number_loop ms sj)).
Proof.
  unfold number_loop. intros Hms. apply Forall_rev in Hms.
  remember false as found eqn:Hf. clear Hf. revert sj found.
  induction (rev ms) as [|m l IH]; intros sj found Hs; [exact Hs|].
  inversion Hms as [|? ? Hm Hl]; subst. cbn [fold_left].
  destruct (number_step (sj, found) m) as [sj' found'] eqn:E.
  apply IH; [exact Hl|].
  change sj' with (fst (sj', found')). rewrite <- E. apply number_step_nonneg; assumption.
Qed.

Lemma number_pass_nonneg s : nonneg_numbers (fst (number_pass (initial_subject s))).
Proof.
  unfold number_pass.
  assert (H0 : nonneg_numbers (initial_subject s)) by (unfold nonneg_numbers; cbn; lia).
  pose proof (number_matches_ok (Subject' (initial_subject s))) as Hok.
  destruct (findAllNamedMatches r_numbers (Subject' (initial_subject s))) as [|m ms];
    [exact H0|].
  pose proof (number_loop_nonneg _ _ Hok H0) as H.
  destruct (number_loop (m :: ms) (initial_subject s)). exact H.
Qed.

Lemma of_match_nonneg rem m :
  of_match rem = Some m -> (0 <= atoi (mget m "file") /\ 0 <= atoi (mget m "totalfiles"))%Z.
Proof.
  unfold of_match, findAllNamedMatches.
  destruct (FindAll (prog r_of) rem) as [|m0 ms] eqn:E; [discriminate|].
  cbn [map]. destruct (nonempty _); [|discriminate]. intros Hm. injection Hm as <-.
  assert (Hin : In m0 (FindAll (prog r_of) rem)) by (rewrite E; left; reflexivity).
  pose proof (fun n Hn => atoi_digits_nonneg _
               (FindAll_group_digits _ _ _ _ n r_of_digit_groups Hin Hn)) as H.
  split; apply H; reflexivity.
Qed.

Lemma ParseSubject_nonneg s :
  nonneg_numbers (fst (ParseSubject s)) /\ (1 <= TotalSegments (fst (ParseSubject s)))%Z.
Proof.
  pose proof (ParseSubject_TotalSegments_nonzero s) as Hnz.
  rewrite ParseSubject_unfold in *.
  pose proof (number_pass_nonneg s) as H1.
  destruct (number_pass (initial_subject s)) as [sj1 rem1]. cbn [fst] in H1.
  assert (H2 : nonneg_numbers (segment_default sj1)).
  { unfold segment_default. destruct (Z.eqb _ 0); [|exact H1].
    unfold nonneg_numbers in *. cbn. lia. }
  assert (H3 : nonneg_numbers (fst (of_pass (segment_default sj1) rem1))).
  { unfold of_pass. destruct (Z.eqb (TotalFiles _) 0); [|exact H2].
    destruct (of_match rem1) as [m|] eqn:Em.
    - apply of_match_nonneg in Em. unfold nonneg_numbers in *. cbn. lia.
    - unfold nonneg_numbers in *. cbn. lia. }
  destruct (of_pass (segment_default sj1) rem1) as [sj3 rem]. cbn [fst] in *.
  destruct (name_passes_numbers sj3 rem) as (E1 & E2 & E3 & E4).
  unfold nonneg_numbers in *. rewrite E1, E2, E3, E4 in *. lia.
Qed.

(** ** [ScanNzbFile] *)

Lemma ParseSubject_error s : snd (ParseSubject s) = None.
Proof.
  rewrite ParseSubject_unfold.
  destruct (number_pass (initial_subject s)) as [sj1 rem1].
  destruct (of_pass (segment_default sj1) rem1). reflexivity.
Qed.

Lemma scan_file_fields unesc acc f : scanned_from f (fst (scan_file unesc acc f)).
Proof.
  unfold scan_file, scanned_from, display_name.
  pose proof (ParseSubject_error (NzbFile.Subject f)) as He.
  destruct (ParseSubject (NzbFile.Subject f)) as [subject err]. cbn in He. subst err.
  destruct (scan_segments _ _ _ _ _) as [[[tfs tb] tfb] segs].
  cbn [fst].
  destruct (nonempty (Filename subject));
    unfold NzbFile.set_Bytes, NzbFile.set_TotalSegments, NzbFile.set_Segments,
      NzbFile.set_Filename, NzbFile.set_Number; cbn; repeat split.
Qed.

Lemma scan_files_fields unesc acc files :
  Forall2 scanned_from files (fst (scan_files unesc acc files)).
Proof.
  revert acc. induction files as [|f fs IH]; intros acc; cbn; [constructor|].
  pose proof (scan_file_fields unesc acc f) as Hf.
  destruct (scan_file unesc acc f) as [f' acc1].
  specialize (IH acc1).
  destruct (scan_files unesc acc1 fs) as [fs' acc2]. constructor; assumption.
Qed.

(** ** [MakeUnique] *)

Section Dedup.

Context {A : Type} (key : A -> string).

Lemma dedup_fold (l before : list A) keys uniq :
  keys_of key keys before ->
  snd (fold_left (dedup_step key) l (keys, uniq)) = (uniq ++ first_occ_from key before l)%list.
Proof.
  revert before keys uniq. induction l as [|x l IH]; intros before keys uniq Hk.
  - cbn. rewrite app_nil_r. reflexivity.
  - cbn [fold_left first_occ_from dedup_step].
    unfold keys_of in Hk. assert (Hkx := Hk (key x)).
    destruct (keys !! key x) as [v|] eqn:E.
    + assert (Hb : existsb (fun y => String.eqb (key y) (key x)) before = true)
        by (apply Hkx; eexists; reflexivity).
      rewrite Hb. cbn [app]. apply IH.
      unfold keys_of. intros k. rewrite Hk, existsb_app. cbn. rewrite orb_false_r.
      split; [intros ->; reflexivity|].
      intros Hor. apply orb_true_iff in Hor as [Hor|Hor]; [exact Hor|].
      apply String.eqb_eq in Hor. rewrite <- Hor. exact Hb.
    + assert (Hb : existsb (fun y => String.eqb (key y) (key x)) before = false).
      { destruct (existsb _ before) eqn:Eb; [|reflexivity].
        apply Hk in Eb. rewrite E in Eb. destruct Eb as [? Eb]. discriminate. }
      rewrite Hb, (IH (before ++ [x])%list), app_assoc; [reflexivity|].
      unfold keys_of. intros k. rewrite lookup_insert_is_Some', Hk, existsb_app. cbn.
      rewrite orb_false_r, orb_true_iff, String.eqb_eq.
      split; intros [H|H]; auto.
Qed.

Lemma dedup_first_occurrences (l : list A) :
  snd (fold_left (dedup_step key) l (∅, [])) = first_occurrences key l.
Proof.
  apply (dedup_fold l [] ∅ []). intros k. rewrite lookup_empty. cbn.
  split; [intros [? H]; discriminate|discriminate].
Qed.

Lemma first_occ_from_nodup (l before : list A) :
  NoDup (map key (first_occ_from key before l)) /\
  forall y, In y (first_occ_from key before l) ->
            existsb (fun z => String.eqb (key z) (key y)) before = false.
Proof.
  revert before. induction l as [|x l IH]; intros before; cbn [first_occ_from].
  - split; [constructor|intros y []].
  - destruct (IH (before ++ [x])%list) as [Hnd Hnot].
    destruct (existsb (fun y => String.eqb (key y) (key x)) before) eqn:Eb; cbn [app].
    + split; [exact Hnd|]. intros y Hy. specialize (Hnot y Hy).
      rewrite existsb_app in Hnot. apply orb_false_iff in Hnot as [H _]. exact H.
    + split.
      * cbn [map]. constructor; [|exact Hnd].
        intros Hin. apply list_elem_of_In, in_map_iff in Hin as [y [Hy Hin]].
        specialize (Hnot y Hin). rewrite existsb_app in Hnot. cbn in Hnot.
        rewrite Hy, String.eqb_refl, orb_true_r in Hnot. discriminate.
      * intros y [<-|Hy]; [exact Eb|]. specialize (Hnot y Hy).
        rewrite existsb_app in Hnot. apply orb_false_iff in Hnot as [H _]. exact H.
Qed.

End Dedup.

Lemma unique_files_eq files :
  unique_files files = first_occurrences NzbFile.Subject files.
Proof. exact (dedup_first_occurrences NzbFile.Subject files). Qed.

Lemma unique_segments_eq segs :
  unique_segments segs = first_occurrences NzbSegment.ID segs.
Proof. exact (dedup_first_occurrences NzbSegment.ID segs). Qed.

(** The two passes over quoted spans do nothing when the remainder holds
    fewer than two of them. *)
Lemma dual_quote_pass_few sj rem :
  (length (quoted_spans rem) < 2)%nat -> dual_quote_pass sj rem = sj.
Proof.
  intros H. unfold dual_quote_pass. destruct (_ && _); [|reflexivity].
  destruct (quoted_spans rem) as [|q [|q' qs]]; [reflexivity|reflexivity|cbn in H; lia].
Qed.

Lemma refine_pass_few sj rem :
  (length (quoted_spans rem) < 2)%nat -> refine_pass sj rem = sj.
Proof.
  intros H. unfold refine_pass. destruct (nonempty _); [|reflexivity].
  destruct (quoted_spans rem) as [|q [|q' qs]]; [reflexivity|reflexivity|cbn in H; lia].
Qed.

(* ================================================================= *)
(** * The claims *)

(** C1: on [1/2] Test Subject - "test.txt" yEnc (1/2), ParseSubject returns
    Header "Test Subject", Filename "test.txt", Basefilename "test", file 1
    of 2 and segment 1 of 2. *)
Theorem C1_round_trip :
  let sj := fst (ParseSubject subj_round_trip) in
  Header sj = "Test Subject" /\ Filename sj = "test.txt" /\ Basefilename sj = "test" /\
  File sj = 1%Z /\ TotalFiles sj = 2%Z /\ Segment sj = 1%Z /\ TotalSegments sj = 2%Z.
Proof. vm_compute. repeat split. Qed.

(** C2 (corrected): the error is always nil, but the text fields are not
    left empty when nothing is recognized. When no numbering pair and no
    x of y phrase matches, all four numbers are 1; when in addition neither
    file name regexp matches the remainder, the remainder holds fewer than
    two quoted spans and it is not empty once trimmed of spaces and dashes,
    the single-file fallback of lines 145-148 takes that trimmed remainder
    as Filename and Basefilename and the backfill of lines 221-223 copies it
    to Header. *)
Theorem C2_never_fails s :
  let sj := fst (ParseSubject s) in
  let rem := numbering_remainder s in
  snd (ParseSubject s) = None /\
  (no_pair_matched s -> of_match rem = None ->
   File sj = 1%Z /\ TotalFiles sj = 1%Z /\ Segment sj = 1%Z /\ TotalSegments sj = 1%Z /\
   (findAllNamedMatches r_quoted rem = [] -> findAllNamedMatches r_unquoted rem = [] ->
    (length (quoted_spans rem) < 2)%nat -> Trim rem " -" <> "" ->
    Header sj = Trim rem " -" /\ Filename sj = Trim rem " -" /\
    Basefilename sj = Trim rem " -")).
Proof.
  cbv zeta. split; [apply ParseSubject_error|]. intros Hno Hof.
  unfold numbering_remainder in *. pose proof (number_pass_idle s Hno) as Hsj1.
  rewrite ParseSubject_unfold.
  destruct (number_pass (initial_subject s)) as [sj1 rem1]. cbn [fst snd] in Hsj1, Hof |- *.
  subst sj1. unfold of_pass.
  cbn [segment_default initial_subject TotalSegments Z.eqb set_segment TotalFiles].
  rewrite Hof. cbn [fst].
  set (sj3 := set_file (set_segment (initial_subject s) 1 1) 1 1).
  destruct (name_passes_numbers sj3 rem1) as (-> & -> & -> & ->).
  split; [reflexivity|]. split; [reflexivity|]. split; [reflexivity|].
  split; [reflexivity|]. intros Hq Hu Hlen Hne.
  unfold name_passes, filename_pass. rewrite Hq, Hu.
  cbn [sj3 set_file set_segment initial_subject TotalFiles Z.eqb Pos.eqb
       set_basefilename set_filename].
  assert (Hh : Header sj3 = "") by reflexivity.
  apply String.eqb_neq in Hne. set (x := Trim rem1 " -") in *. clearbody x sj3.
  rewrite dual_quote_pass_few, refine_pass_few by exact Hlen.
  unfold header_backfill, lead_bracket_pass, nonempty, set_basefilename, set_filename,
    set_header.
  cbn [Header Filename Basefilename]. rewrite Hh, Hne. cbn [String.eqb negb andb].
  cbn [Header Filename Basefilename]. rewrite Hne. repeat split.
Qed.

Lemma C2_witness :
  (no_pair_matched "abc" /\ of_match (numbering_remainder "abc") = None /\
   findAllNamedMatches r_quoted (numbering_remainder "abc") = [] /\
   findAllNamedMatches r_unquoted (numbering_remainder "abc") = [] /\
   (length (quoted_spans (numbering_remainder "abc")) < 2)%nat /\
   Trim (numbering_remainder "abc") " -" <> "") /\
   (let sj := fst (ParseSubject "abc") in
   File sj = 1%Z /\ TotalFiles sj = 1%Z /\ Segment sj = 1%Z /\ TotalSegments sj = 1%Z /\
   Header sj = "abc" /\ Filename sj = "abc" /\ Basefilename sj = "abc").
Proof.
  assert (H1 : no_pair_matched "abc") by (vm_compute; repeat constructor).
  assert (H2 : of_match (numbering_remainder "abc") = None) by (vm_compute; reflexivity).
  assert (H3 : findAllNamedMatches r_quoted (numbering_remainder "abc") = [])
    by (vm_compute; reflexivity).
  assert (H4 : findAllNamedMatches r_unquoted (numbering_remainder "abc") = [])
    by (vm_compute; reflexivity).
  assert (H5 : (length (quoted_spans (numbering_remainder "abc")) < 2)%nat)
    by (vm_compute; lia).
  assert (H6 : Trim (numbering_remainder "abc") " -" <> "") by (vm_compute; discriminate).
  assert (E : Trim (numbering_remainder "abc") " -" = "abc") by (vm_compute; reflexivity).
  split; [repeat split; assumption|].
  destruct (C2_never_fails "abc") as [_ H].
  destruct (H H1 H2) as (F & TF & Sg & TS & Hn).
  destruct (Hn H3 H4 H5 H6) as (Hh & Hf & Hb). rewrite E in Hh, Hf, Hb.
  cbv zeta. repeat split; assumption.
Defined.

(** C2 counterexample: abc matches no numbering pair, no x of y phrase and
    neither file name regexp, yet its Filename is abc, not empty. *)
Lemma C2_counterexample :
  no_pair_matched "abc" /\ of_match (numbering_remainder "abc") = None /\
  findAllNamedMatches r_quoted (numbering_remainder "abc") = [] /\
  findAllNamedMatches r_unquoted (numbering_remainder "abc") = [] /\
  Filename (fst (ParseSubject "abc")) <> "".
Proof.
  vm_compute. split; [repeat constructor|]. split; [reflexivity|].
  split; [reflexivity|]. split; [reflexivity|]. discriminate.
Qed.

(** C3: when no numbering pair matches and the x of y fallback does not
    match the remainder, all four numbers are 1. *)
Theorem C3_default_numbers s :
  no_pair_matched s -> of_match (numbering_remainder s) = None ->
  let sj := fst (ParseSubject s) in
  File sj = 1%Z /\ TotalFiles sj = 1%Z /\ Segment sj = 1%Z /\ TotalSegments sj = 1%Z.
Proof.
  intros Hno Hof. unfold numbering_remainder in Hof.
  pose proof (number_pass_idle s Hno) as Hsj1.
  rewrite ParseSubject_unfold.
  destruct (number_pass (initial_subject s)) as [sj1 rem1]. cbn [fst snd] in Hsj1, Hof. subst sj1.
  unfold of_pass. cbn [segment_default initial_subject TotalSegments Z.eqb set_segment TotalFiles].
  rewrite Hof. cbn [fst].
  destruct (name_passes_numbers (set_file (set_segment (initial_subject s) 1 1) 1 1) rem1)
    as (-> & -> & -> & ->).
  cbn. repeat split.
Qed.

Lemma C3_witness :
  (no_pair_matched "abc" /\ of_match (numbering_remainder "abc") = None) /\
  (let sj := fst (ParseSubject "abc") in
   File sj = 1%Z /\ TotalFiles sj = 1%Z /\ Segment sj = 1%Z /\ TotalSegments sj = 1%Z).
Proof.
  assert (H1 : no_pair_matched "abc") by (vm_compute; repeat constructor).
  assert (H2 : of_match (numbering_remainder "abc") = None) by (vm_compute; reflexivity).
  split; [split; assumption|]. exact (C3_default_numbers "abc" H1 H2).
Defined.

(** C4: on [003/120] [03/140] "Release.Name.r03" yEnc the first bracket pair
    gives file 3 of 120 and the second, shifted, segment 3 of 140. *)
Theorem C4_bracket_shift :
  let sj := fst (ParseSubject subj_shift) in
  File sj = 3%Z /\ TotalFiles sj = 120%Z /\ Segment sj = 3%Z /\ TotalSegments sj = 140%Z.
Proof. vm_compute. repeat split. Qed.

(** C5: on [04/23] "Release.Name" - "release.name.r00" - yEnc(1/140) the
    second quoted span becomes the file name and the first the header. *)
Theorem C5_dual_quote :
  let sj := fst (ParseSubject subj_dual_quote) in
  Header sj = "Release.Name" /\ Filename sj = "release.name.r00" /\
  Basefilename sj = "release.name" /\
  File sj = 4%Z /\ TotalFiles sj = 23%Z /\ Segment sj = 1%Z /\ TotalSegments sj = 140%Z.
Proof. vm_compute. repeat split. Qed.

(** C6 (corrected): a zero segment total is never kept. Whenever the
    numbering pass of lines 37-103 leaves TotalSegments at 0, the check of
    lines 105-109 resets Segment and TotalSegments to 1/1 and no later pass
    changes them; the test subject ending in (1/0) is such a case and gets
    segment 1 of 1. *)
Theorem C6_zero_total_defaulted :
  (forall s, (TotalSegments (fst (ParseSubject s)) =? 0)%Z = false) /\
  (forall s, TotalSegments (fst (number_pass (initial_subject s))) = 0%Z ->
     Segment (fst (ParseSubject s)) = 1%Z /\ TotalSegments (fst (ParseSubject s)) = 1%Z) /\
  TotalSegments (fst (number_pass (initial_subject subj_zero_total))) = 0%Z /\
  Segment (fst (ParseSubject subj_zero_total)) = 1%Z /\
  TotalSegments (fst (ParseSubject subj_zero_total)) = 1%Z.
Proof.
  split; [|split; [|vm_compute; repeat split]].
  - intros s. apply Z.eqb_neq, ParseSubject_TotalSegments_nonzero.
  - intros s H. rewrite ParseSubject_unfold.
    destruct (number_pass (initial_subject s)) as [sj1 rem1]. cbn [fst] in H.
    unfold segment_default. rewrite H, Z.eqb_refl.
    destruct (of_pass (set_segment sj1 1 1) rem1) as [sj3 rem] eqn:E. cbn [fst].
    destruct (of_pass_segments (set_segment sj1 1 1) rem1) as [Hs Ht].
    rewrite E in Hs, Ht. cbn [fst] in Hs, Ht.
    destruct (name_passes_numbers sj3 rem) as (_ & _ & -> & ->).
    rewrite Hs, Ht. split; reflexivity.
Qed.

Lemma C6_witness :
  TotalSegments (fst (number_pass (initial_subject subj_zero_total))) = 0%Z /\
  Segment (fst (ParseSubject subj_zero_total)) = 1%Z /\
  TotalSegments (fst (ParseSubject subj_zero_total)) = 1%Z.
Proof.
  assert (H : TotalSegments (fst (number_pass (initial_subject subj_zero_total))) = 0%Z)
    by (vm_compute; reflexivity).
  split; [exact H|]. exact (proj1 (proj2 C6_zero_total_defaulted) subj_zero_total H).
Defined.

(** C6 counterexample: no subject embedding (1/0) has a zero segment total. *)
Lemma C6_counterexample :
  ~ exists pre post, TotalSegments (fst (ParseSubject (pre ++ "(1/0)" ++ post))) = 0%Z.
Proof.
  intros (pre & post & H). exact (ParseSubject_TotalSegments_nonzero _ H).
Qed.

(** C7 (corrected): the numbers are never negative and the segment total is
    at least 1, but File, TotalFiles and Segment may be 0: [0/5] x gives
    File 0. *)
Theorem C7_numbers_range :
  (forall s, let sj := fst (ParseSubject s) in
     (0 <= File sj /\ 0 <= TotalFiles sj /\ 0 <= Segment sj /\ 1 <= TotalSegments sj)%Z) /\
  File (fst (ParseSubject "[0/5] x")) = 0%Z.
Proof.
  split; [|vm_compute; reflexivity].
  intros s. destruct (ParseSubject_nonneg s) as [(H1 & H2 & H3 & _) H4]. cbv zeta. lia.
Qed.

(** C7 counterexample: the subject [0/5] x gives File 0, which is not
    positive. *)
Lemma C7_counterexample : ~ (1 <= File (fst (ParseSubject "[0/5] x")))%Z.
Proof. vm_compute. intros H. apply H. reflexivity. Qed.

(** C8: if the returned Header is empty, so is Basefilename. *)
Theorem C8_header_backfilled s :
  Header (fst (ParseSubject s)) = "" -> Basefilename (fst (ParseSubject s)) = "".
Proof.
  rewrite ParseSubject_unfold.
  destruct (number_pass (initial_subject s)) as [sj1 rem1].
  destruct (of_pass (segment_default sj1) rem1) as [sj3 rem]. cbn [fst].
  unfold name_passes. apply lead_bracket_pass_inv, header_backfill_inv.
Qed.

Lemma C8_witness :
  Header (fst (ParseSubject "[1/2] abc")) = "" /\
  Basefilename (fst (ParseSubject "[1/2] abc")) = "".
Proof.
  assert (H : Header (fst (ParseSubject "[1/2] abc")) = "") by (vm_compute; reflexivity).
  split; [exact H|]. exact (C8_header_backfilled "[1/2] abc" H).
Defined.

(** C9: ScanNzbFile keeps the files in order and sets each one's Number to
    the parsed File and its Filename to the parsed Filename, or to the
    parsed Header when that is empty. *)
Theorem C9_scan_numbers_names unesc nzb :
  Forall2 (fun f0 f =>
             let sj := fst (ParseSubject (NzbFile.Subject f0)) in
             NzbFile.Subject f = NzbFile.Subject f0 /\
             NzbFile.Number f = File sj /\
             NzbFile.Filename f = (if nonempty (Filename sj) then Filename sj else Header sj))
          (Nzb.Files nzb) (Nzb.Files (ScanNzbFile unesc nzb)).
Proof.
  unfold ScanNzbFile.
  pose proof (scan_files_fields unesc (mkAcc 0 0 0 0) (Nzb.Files nzb)) as H.
  destruct (scan_files unesc (mkAcc 0 0 0 0) (Nzb.Files nzb)) as [files acc].
  exact H.
Qed.

(** C10: after MakeUnique the file subjects are distinct, the segment IDs of
    each file are distinct, and the files and segments kept are the first
    occurrence of each key, in their original order. *)
Theorem C10_make_unique nzb :
  let fs := Nzb.Files (MakeUnique nzb) in
  NoDup (map NzbFile.Subject fs) /\
  Forall (fun f => NoDup (map NzbSegment.ID (NzbFile.Segments f))) fs /\
  fs = map (fun f => NzbFile.set_Segments f (first_occurrences NzbSegment.ID (NzbFile.Segments f)))
           (first_occurrences NzbFile.Subject (Nzb.Files nzb)).
Proof.
  cbv zeta. unfold MakeUnique, Nzb.set_Files. cbn [Nzb.Files].
  rewrite unique_files_eq.
  assert (Hseg : forall f, unique_segments (NzbFile.Segments f)
                           = first_occurrences NzbSegment.ID (NzbFile.Segments f))
    by (intros f; apply unique_segments_eq).
  split; [|split].
  - rewrite map_map. unfold NzbFile.set_Segments. cbn [NzbFile.Subject].
    apply (first_occ_from_nodup NzbFile.Subject (Nzb.Files nzb) []).
  - apply List.Forall_forall. intros f Hf. apply in_map_iff in Hf as [f0 [<- _]].
    unfold NzbFile.set_Segments. cbn [NzbFile.Segments].
    rewrite Hseg. apply (first_occ_from_nodup NzbSegment.ID (NzbFile.Segments f0) []).
  - apply map_ext. intros f. rewrite Hseg. reflexivity.
Qed.

(* ================================================================= *)
(** * Further properties of the code *)

(** ** [ParseSubject] keeps the trimmed subject *)

Ltac subj_set := unfold set_header, set_filename, set_basefilename, set_file, set_segment;
                 cbn [Subject']; reflexivity.

Lemma number_step_subject st m : Subject' (fst (number_step st m)) = Subject' (fst st).
Proof.
  destruct st as [sj found]. unfold number_step.
  destruct (_ && _).
  - destruct (nonempty (mget m "files")); [subj_set|].
    destruct (nonempty (mget m "segments")); [subj_set|reflexivity].
  - destruct (_ || _); [|reflexivity].
    destruct (nonempty (mget m "files")).
    + destruct (negb (Z.eqb (TotalFiles sj) 0)); cbn [TotalSegments];
        [destruct (Z.eqb _ 0)|destruct (Z.eqb (TotalSegments sj) 0)]; subj_set.
    + destruct (nonempty (mget m "segments")); [|reflexivity].
      destruct (negb _); subj_set.
Qed.

Lemma fold_number_step_subject (l : list named_match) st :
  Subject' (fst (fold_left number_step l st)) = Subject' (fst st).
Proof.
  revert st. induction l as [|m l IH]; intros st; [reflexivity|].
  cbn [fold_left]. rewrite IH. apply number_step_subject.
Qed.

Lemma number_pass_subject sj : Subject' (fst (number_pass sj)) = Subject' sj.
Proof.
  unfold number_pass. destruct (findAllNamedMatches r_numbers (Subject' sj)) as [|m ms];
    [reflexivity|].
  unfold number_loop. pose proof (fold_number_step_subject (rev (m :: ms)) (sj, false)) as H.
  destruct (fold_left number_step (rev (m :: ms)) (sj, false)). exact H.
Qed.

Lemma of_pass_subject sj rem : Subject' (fst (of_pass sj rem)) = Subject' sj.
Proof.
  unfold of_pass. destruct (Z.eqb (TotalFiles sj) 0); [|reflexivity].
  destruct (of_match rem); subj_set.
Qed.

Lemma segment_default_subject sj : Subject' (segment_default sj) = Subject' sj.
Proof. unfold segment_default. destruct (Z.eqb _ 0); [subj_set|reflexivity]. Qed.

Lemma filename_pass_subject sj rem : Subject' (filename_pass sj rem) = Subject' sj.
Proof.
  unfold filename_pass.
  destruct (findAllNamedMatches r_quoted rem); [|subj_set].
  destruct (findAllNamedMatches r_unquoted rem); [|subj_set].
  destruct (Z.eqb (TotalFiles sj) 1); [subj_set|reflexivity].
Qed.

Lemma dual_quote_loop_subject sj first qs : Subject' (dual_quote_loop sj first qs) = Subject' sj.
Proof.
  induction qs as [|qt qs IH]; cbn [dual_quote_loop]; [reflexivity|].
  destruct (FindFirst fileWithExtRE (TrimSpace qt)); [|exact IH].
  destruct (String.eqb _ ""); subj_set.
Qed.

Lemma dual_quote_pass_subject sj rem : Subject' (dual_quote_pass sj rem) = Subject' sj.
Proof.
  unfold dual_quote_pass.
  destruct (_ && _); [|reflexivity].
  destruct (quoted_spans rem) as [|first [|x rest]]; try reflexivity.
  apply dual_quote_loop_subject.
Qed.

Lemma refine_loop_subject sj first qs : Subject' (refine_loop sj first qs) = Subject' sj.
Proof.
  induction qs as [|qt qs IH]; cbn [refine_loop]; [reflexivity|].
  destruct (FindFirst candidateRE (TrimSpace qt)); [|exact IH].
  destruct (_ || _); subj_set.
Qed.

Lemma refine_pass_subject sj rem : Subject' (refine_pass sj rem) = Subject' sj.
Proof.
  unfold refine_pass.
  destruct (nonempty (Filename sj)); [|reflexivity].
  destruct (quoted_spans rem) as [|first [|x rest]]; try reflexivity.
  destruct (_ && _); [apply refine_loop_subject|reflexivity].
Qed.

Lemma header_backfill_subject sj : Subject' (header_backfill sj) = Subject' sj.
Proof. unfold header_backfill; destruct (_ && _); [subj_set|reflexivity]. Qed.

Lemma lead_bracket_pass_subject sj : Subject' (lead_bracket_pass sj) = Subject' sj.
Proof.
  unfold lead_bracket_pass.
  destruct (String.eqb (Filename sj) ""); [|reflexivity].
  destruct (FindFirst leadBrackets (Subject' sj)); [|reflexivity].
  destruct (FindFirst tailQuoteRE _); [|reflexivity].
  destruct (String.eqb _ ""); subj_set.
Qed.

Lemma name_passes_subject sj rem : Subject' (name_passes sj rem) = Subject' sj.
Proof.
  unfold name_passes.
  rewrite lead_bracket_pass_subject, header_backfill_subject, refine_pass_subject,
    dual_quote_pass_subject. apply filename_pass_subject.
Qed.

(** *** [strings.TrimSpace] is idempotent *)

Lemma drop_while_head_kept p l : head_kept p (drop_while p l).
Proof.
  induction l as [|a l IH]; cbn; [exact I|]. destruct (p a) eqn:E; [exact IH|exact E].
Qed.

Lemma drop_while_kept p l : head_kept p l -> drop_while p l = l.
Proof. destruct l as [|a l]; cbn; [reflexivity|]. intros ->. reflexivity. Qed.

Lemma drop_while_split p l : exists u, l = (u ++ drop_while p l)%list.
Proof.
  induction l as [|a l [u IH]]; cbn; [exists []; reflexivity|].
  destruct (p a); [exists (a :: u); cbn; f_equal; exact IH|exists []; reflexivity].
Qed.

Lemma trim_right_head_kept p l : head_kept p l -> head_kept p (trim_right_l p l).
Proof.
  unfold trim_right_l. destruct (drop_while_split p (rev l)) as [u Hu].
  assert (Hl : l = (rev (drop_while p (rev l)) ++ rev u)%list).
  { rewrite <- rev_app_distr, <- Hu, rev_involutive. reflexivity. }
  destruct (rev (drop_while p (rev l))) as [|a r]; [intros; exact I|].
  rewrite Hl. cbn. exact (fun H => H).
Qed.

Lemma trim_l_idem p l : trim_l p (trim_l p l) = trim_l p l.
Proof.
  unfold trim_l. set (x := trim_left_l p l).
  assert (Hx : head_kept p x) by apply drop_while_head_kept.
  unfold trim_left_l at 1. rewrite (drop_while_kept p _ (trim_right_head_kept p x Hx)).
  unfold trim_right_l. rewrite rev_involutive.
  rewrite (drop_while_kept p _ (drop_while_head_kept p (rev x))). reflexivity.
Qed.

Lemma TrimSpace_idem s : TrimSpace (TrimSpace s) = TrimSpace s.
Proof.
  unfold TrimSpace. rewrite list_ascii_of_string_of_list_ascii, trim_l_idem. reflexivity.
Qed.

(** X: the Subject field ParseSubject returns is the input with leading and
    trailing white space removed; no later step changes it. *)
Theorem ParseSubject_Subject s : Subject' (fst (ParseSubject s)) = TrimSpace s.
Proof.
  rewrite ParseSubject_unfold.
  pose proof (number_pass_subject (initial_subject s)) as H1.
  destruct (number_pass (initial_subject s)) as [sj1 rem1]. cbn [fst] in H1.
  pose proof (of_pass_subject (segment_default sj1) rem1) as H3.
  destruct (of_pass (segment_default sj1) rem1) as [sj3 rem]. cbn [fst] in H3 |- *.
  rewrite name_passes_subject, H3, segment_default_subject, H1. reflexivity.
Qed.

(** X: ParseSubject ignores leading and trailing white space: it gives the
    same result on the input and on the input trimmed by TrimSpace. *)
Theorem ParseSubject_TrimSpace_eq s : ParseSubject (TrimSpace s) = ParseSubject s.
Proof. unfold ParseSubject, initial_subject. rewrite TrimSpace_idem. reflexivity. Qed.

(** ** [ScanNzbFile] in closed form *)

Lemma wrap64_idem z : wrap64 (wrap64 z) = wrap64 z.
Proof.
  unfold wrap64. rewrite Z.sub_add. rewrite Z.mod_mod by lia. reflexivity.
Qed.

Lemma wrap64_add_l a b : wrap64 (wrap64 a + b) = wrap64 (a + b).
Proof.
  unfold wrap64.
  replace ((a + 2 ^ 63) mod 2 ^ 64 - 2 ^ 63 + b + 2 ^ 63)%Z
    with ((a + 2 ^ 63) mod 2 ^ 64 + b)%Z by ring.
  rewrite Z.add_mod_idemp_l by lia. f_equal. f_equal. ring.
Qed.

Lemma wrap64_add_r a b : wrap64 (a + wrap64 b) = wrap64 (a + b).
Proof. rewrite Z.add_comm, wrap64_add_l, Z.add_comm. reflexivity. Qed.

Lemma wrap64_zsum l : wrap64 (zsum (map wrap64 l)) = wrap64 (zsum l).
Proof.
  induction l as [|x l IH]; [reflexivity|]. unfold zsum in *. cbn [map fold_right].
  rewrite wrap64_add_l, <- wrap64_add_r, IH, wrap64_add_r. reflexivity.
Qed.

Lemma if_ltb_max a b : (if (a <? b)%Z then b else a) = Z.max a b.
Proof. destruct (Z.ltb_spec a b); lia. Qed.

Lemma scan_segments_eq unesc segs tfs tb tfb :
  wrap64 tb = tb -> wrap64 tfb = tfb ->
  scan_segments unesc segs tfs tb tfb =
  (fold_left Z.max (map NzbSegment.Number segs) tfs, wrap64 (tb + sum_bytes segs),
   wrap64 (tfb + sum_bytes segs), map (unescape_segment unesc) segs).
Proof.
  revert tfs tb tfb. induction segs as [|sg segs IH]; intros tfs tb tfb Htb Htfb.
  - cbn. rewrite !Z.add_0_r, Htb, Htfb. reflexivity.
  - cbn [scan_segments]. rewrite IH by apply wrap64_idem.
    rewrite if_ltb_max, !wrap64_add_l. unfold sum_bytes. cbn [map zsum fold_right].
    rewrite !Z.add_assoc. reflexivity.
Qed.

Lemma scan_file_eq unesc acc f :
  wrap64 (acc_totalBytes acc) = acc_totalBytes acc ->
  let sj := fst (ParseSubject (NzbFile.Subject f)) in
  let segs := NzbFile.Segments f in
  let tfs := fold_left Z.max (map NzbSegment.Number segs) (TotalSegments sj) in
  scan_file unesc acc f =
  (NzbFile.mk (NzbFile.Groups f) (map (unescape_segment unesc) segs) (NzbFile.Poster f)
     (NzbFile.Date f) (NzbFile.Subject f) (wrap64 (sum_bytes segs)) (NzbFile.FileHash f)
     (File sj) (display_name sj) (NzbFile.Basefilename f) tfs,
   mkAcc (wrap64 (acc_segments acc + Z.of_nat (length segs))) (wrap64 (acc_totalSegments acc + tfs))
         (wrap64 (acc_totalBytes acc + sum_bytes segs)) (Z.max (acc_totalFiles acc) (TotalFiles sj))).
Proof.
  intros Hb. unfold scan_file, display_name.
  pose proof (ParseSubject_error (NzbFile.Subject f)) as He.
  destruct (ParseSubject (NzbFile.Subject f)) as [sj err]. cbn [snd] in He. subst err.
  cbn [fst]. rewrite if_ltb_max.
  rewrite scan_segments_eq by (exact Hb || reflexivity).
  rewrite Z.add_0_l.
  destruct (nonempty (Filename sj)); reflexivity.
Qed.

Lemma scan_files_eq unesc acc files :
  wrap64 (acc_segments acc) = acc_segments acc ->
  wrap64 (acc_totalSegments acc) = acc_totalSegments acc ->
  wrap64 (acc_totalBytes acc) = acc_totalBytes acc ->
  let out := map (scanned unesc) files in
  scan_files unesc acc files =
  (out,
   mkAcc (wrap64 (acc_segments acc
                  + zsum (map (fun f => Z.of_nat (length (NzbFile.Segments f))) files)))
         (wrap64 (acc_totalSegments acc + zsum (map NzbFile.TotalSegments out)))
         (wrap64 (acc_totalBytes acc + zsum (map (fun f => sum_bytes (NzbFile.Segments f)) files)))
         (fold_left Z.max (map (fun f => TotalFiles (fst (ParseSubject (NzbFile.Subject f)))) files)
                    (acc_totalFiles acc))).
Proof.
  revert acc. induction files as [|f fs IH]; intros acc Hs Hts Hb.
  - cbn. rewrite !Z.add_0_r, Hs, Hts, Hb. destruct acc; reflexivity.
  - cbn [scan_files]. rewrite (scan_file_eq unesc acc f Hb).
    rewrite IH by apply wrap64_idem. cbn [map fold_left acc_segments acc_totalSegments
                                           acc_totalBytes acc_totalFiles].
    unfold scanned. rewrite (scan_file_eq unesc (mkAcc 0 0 0 0) f eq_refl). cbn [fst].
    unfold zsum; cbn [fold_right NzbFile.TotalSegments].
    rewrite !wrap64_add_l, !Z.add_assoc. reflexivity.
Qed.

Lemma ScanNzbFile_eq unesc nzb :
  let out := map (scanned unesc) (Nzb.Files nzb) in
  let totalFiles := fold_left Z.max
      (map (fun f => TotalFiles (fst (ParseSubject (NzbFile.Subject f)))) (Nzb.Files nzb)) 0%Z in
  ScanNzbFile unesc nzb =
  Nzb.mk (Nzb.Comment nzb) (Nzb.Meta nzb) out
    (Z.max totalFiles (Z.of_nat (length (Nzb.Files nzb))))
    (wrap64 (zsum (map (fun f => Z.of_nat (length (NzbFile.Segments f))) (Nzb.Files nzb))))
    (wrap64 (zsum (map NzbFile.TotalSegments out)))
    (wrap64 (zsum (map (fun f => sum_bytes (NzbFile.Segments f)) (Nzb.Files nzb)))).
Proof.
  unfold ScanNzbFile. rewrite scan_files_eq by reflexivity. cbn [acc_totalFiles acc_segments
    acc_totalSegments acc_totalBytes]. rewrite if_ltb_max, !Z.add_0_l. reflexivity.
Qed.

Lemma scanned_eq unesc f :
  let sj := fst (ParseSubject (NzbFile.Subject f)) in
  let segs := NzbFile.Segments f in
  scanned unesc f =
  NzbFile.mk (NzbFile.Groups f) (map (unescape_segment unesc) segs) (NzbFile.Poster f)
     (NzbFile.Date f) (NzbFile.Subject f) (wrap64 (sum_bytes segs)) (NzbFile.FileHash f)
     (File sj) (display_name sj) (NzbFile.Basefilename f)
     (fold_left Z.max (map NzbSegment.Number segs) (TotalSegments sj)).
Proof. unfold scanned. rewrite scan_file_eq by reflexivity. reflexivity. Qed.

Lemma fold_max_bounds (l : list Z) a :
  (a <= fold_left Z.max l a)%Z /\ Forall (fun x => x <= fold_left Z.max l a)%Z l /\
  (fold_left Z.max l a = a \/ In (fold_left Z.max l a) l).
Proof.
  revert a. induction l as [|x l IH]; intros a; cbn [fold_left].
  - split; [lia|split; [constructor|left; reflexivity]].
  - destruct (IH (Z.max a x)) as (H1 & H2 & H3). split; [lia|split].
    + constructor; [lia|exact H2].
    + destruct H3 as [H3|H3]; [|right; right; exact H3].
      rewrite H3. destruct (Z.max_spec a x) as [[_ ->]|[_ ->]]; [right; left|left]; reflexivity.
Qed.

Lemma Forall2_map_self {A B} (P : A -> B -> Prop) (g : A -> B) (l : list A) :
  (forall x, In x l -> P x (g x)) -> Forall2 P l (map g l).
Proof.
  induction l as [|x l IH]; intros H; cbn; constructor.
  - apply H. left. reflexivity.
  - apply IH. intros y Hy. apply H. right. exact Hy.
Qed.

(** ** [ScanNzbFile]: extra properties *)

(** X: ScanNzbFile keeps the files in order and keeps their groups, poster,
    date, subject, hash and base file name (it never sets Basefilename);
    each segment is kept in place with its ID unescaped; Comment and Meta
    are unchanged. *)
Theorem ScanNzbFile_keeps_fields unesc nzb :
  let res := ScanNzbFile unesc nzb in
  Nzb.Comment res = Nzb.Comment nzb /\ Nzb.Meta res = Nzb.Meta nzb /\
  Forall2 (fun f0 f =>
             NzbFile.Groups f = NzbFile.Groups f0 /\ NzbFile.Poster f = NzbFile.Poster f0 /\
             NzbFile.Date f = NzbFile.Date f0 /\ NzbFile.Subject f = NzbFile.Subject f0 /\
             NzbFile.FileHash f = NzbFile.FileHash f0 /\
             NzbFile.Basefilename f = NzbFile.Basefilename f0 /\
             NzbFile.Segments f = map (unescape_segment unesc) (NzbFile.Segments f0))
          (Nzb.Files nzb) (Nzb.Files res).
Proof.
  cbv zeta. rewrite ScanNzbFile_eq. cbn [Nzb.Comment Nzb.Meta Nzb.Files].
  split; [reflexivity|split; [reflexivity|]].
  apply Forall2_map_self. intros f _. rewrite scanned_eq. cbn. repeat split.
Qed.

(** X: each file's Bytes is the sum of its segments' Bytes, and the Nzb's
    Bytes the sum over all segments, which is also the sum of the files'
    Bytes (all as Go int64 sums, wrapping modulo 2^64). *)
Theorem ScanNzbFile_bytes unesc nzb :
  let res := ScanNzbFile unesc nzb in
  Forall2 (fun f0 f => NzbFile.Bytes f = wrap64 (sum_bytes (NzbFile.Segments f0)))
          (Nzb.Files nzb) (Nzb.Files res) /\
  Nzb.Bytes res = wrap64 (zsum (map (fun f => sum_bytes (NzbFile.Segments f)) (Nzb.Files nzb))) /\
  Nzb.Bytes res = wrap64 (zsum (map NzbFile.Bytes (Nzb.Files res))).
Proof.
  cbv zeta. rewrite ScanNzbFile_eq. cbn [Nzb.Bytes Nzb.Files]. split; [|split].
  - apply Forall2_map_self. intros f _. rewrite scanned_eq. reflexivity.
  - reflexivity.
  - rewrite map_map.
    rewrite (map_ext (fun x => NzbFile.Bytes (scanned unesc x))
                     (fun x => wrap64 (sum_bytes (NzbFile.Segments x))))
      by (intros f; rewrite scanned_eq; reflexivity).
    rewrite <- (map_map (fun f => sum_bytes (NzbFile.Segments f)) wrap64), wrap64_zsum.
    reflexivity.
Qed.

(** X: each file's TotalSegments is at least 1, at least the segment total
    parsed from its subject and at least every segment's Number, and it is
    one of these values. *)
Theorem ScanNzbFile_file_TotalSegments unesc nzb :
  Forall2 (fun f0 f =>
             let sj := fst (ParseSubject (NzbFile.Subject f0)) in
             (1 <= NzbFile.TotalSegments f)%Z /\
             (TotalSegments sj <= NzbFile.TotalSegments f)%Z /\
             Forall (fun s => NzbSegment.Number s <= NzbFile.TotalSegments f)%Z
                    (NzbFile.Segments f0) /\
             (NzbFile.TotalSegments f = TotalSegments sj \/
              Exists (fun s => NzbSegment.Number s = NzbFile.TotalSegments f) (NzbFile.Segments f0)))
          (Nzb.Files nzb) (Nzb.Files (ScanNzbFile unesc nzb)).
Proof.
  rewrite ScanNzbFile_eq. cbn [Nzb.Files]. apply Forall2_map_self. intros f _.
  rewrite scanned_eq. cbv zeta. cbn [NzbFile.TotalSegments].
  destruct (ParseSubject_nonneg (NzbFile.Subject f)) as [_ Hone].
  set (sj := fst (ParseSubject (NzbFile.Subject f))) in *.
  destruct (fold_max_bounds (map NzbSegment.Number (NzbFile.Segments f)) (TotalSegments sj))
    as (H1 & H2 & H3).
  split; [lia|split; [exact H1|split]].
  - apply List.Forall_forall. intros s Hs.
    apply (proj1 (List.Forall_forall _ _) H2). apply in_map, Hs.
  - destruct H3 as [H3|H3]; [left; exact H3|right].
    apply in_map_iff in H3 as [s [Hs Hin]]. apply List.Exists_exists. exists s. split; assumption.
Qed.

(** X: the Nzb's Segments is the number of segments of all files and its
    TotalSegments the sum of the files' TotalSegments (Go int sums,
    wrapping modulo 2^64). *)
Theorem ScanNzbFile_segment_counts unesc nzb :
  let res := ScanNzbFile unesc nzb in
  Nzb.Segments res =
    wrap64 (zsum (map (fun f => Z.of_nat (length (NzbFile.Segments f))) (Nzb.Files nzb))) /\
  Nzb.TotalSegments res = wrap64 (zsum (map NzbFile.TotalSegments (Nzb.Files res))).
Proof. cbv zeta. rewrite ScanNzbFile_eq. split; reflexivity. Qed.

(** X: the Nzb's TotalFiles is at least the number of files and at least
    every file total parsed from a subject, and it is one of these values. *)
Theorem ScanNzbFile_TotalFiles unesc nzb :
  let res := ScanNzbFile unesc nzb in
  (Z.of_nat (length (Nzb.Files nzb)) <= Nzb.TotalFiles res)%Z /\
  Forall (fun f => TotalFiles (fst (ParseSubject (NzbFile.Subject f))) <= Nzb.TotalFiles res)%Z
         (Nzb.Files nzb) /\
  (Nzb.TotalFiles res = Z.of_nat (length (Nzb.Files nzb)) \/
   Exists (fun f => TotalFiles (fst (ParseSubject (NzbFile.Subject f))) = Nzb.TotalFiles res)
          (Nzb.Files nzb)).
Proof.
  cbv zeta. rewrite ScanNzbFile_eq. cbn [Nzb.TotalFiles].
  set (tf := fun f => TotalFiles (fst (ParseSubject (NzbFile.Subject f)))).
  destruct (fold_max_bounds (map tf (Nzb.Files nzb)) 0%Z) as (_ & H2 & H3).
  set (m := fold_left Z.max (map tf (Nzb.Files nzb)) 0%Z) in *.
  split; [lia|split].
  - apply List.Forall_forall. intros f Hf.
    pose proof (proj1 (List.Forall_forall _ _) H2 (tf f) (in_map tf _ _ Hf)) as H.
    unfold tf in H. cbv beta in H. lia.
  - destruct (Z.max_spec m (Z.of_nat (length (Nzb.Files nzb)))) as [[_ ->]|[Hle ->]];
      [left; reflexivity|].
    destruct H3 as [H3|H3].
    + left. lia.
    + right. apply in_map_iff in H3 as [f [Hf Hin]]. apply List.Exists_exists. exists f.
      split; [exact Hin|]. exact Hf.
Qed.

(** ** [MakeUnique]: extra properties *)

Section FirstOcc.

Context {A : Type} (key : A -> string).

Lemma first_occ_from_id (l before : list A) :
  NoDup (map key l) ->
  (forall y, In y l -> existsb (fun z => String.eqb (key z) (key y)) before = false) ->
  first_occ_from key before l = l.
Proof.
  revert before. induction l as [|x l IH]; intros before Hnd Hb; [reflexivity|].
  cbn [map] in Hnd. inversion Hnd as [|? ? Hx Hnd']; subst.
  cbn [first_occ_from]. rewrite (Hb x (or_introl eq_refl)). cbn [app]. f_equal.
  apply IH; [exact Hnd'|]. intros y Hy. rewrite existsb_app, (Hb y (or_intror Hy)). cbn.
  destruct (String.eqb_spec (key x) (key y)) as [E|E]; [|reflexivity].
  exfalso. apply Hx. apply list_elem_of_In. rewrite E. apply in_map, Hy.
Qed.

Lemma first_occurrences_id (l : list A) : NoDup (map key l) -> first_occurrences key l = l.
Proof. intros H. apply first_occ_from_id; [exact H|reflexivity]. Qed.

Lemma first_occ_from_incl (l before : list A) y : In y (first_occ_from key before l) -> In y l.
Proof.
  revert before. induction l as [|x l IH]; intros before Hy; [exact Hy|].
  cbn [first_occ_from] in Hy. apply in_app_or in Hy as [Hy|Hy].
  - destruct (existsb _ before); [destruct Hy|]. left. destruct Hy as [->|[]]. reflexivity.
  - right. exact (IH _ Hy).
Qed.

Lemma first_occ_from_keys (l before : list A) k :
  In k (map key l) ->
  existsb (fun y => String.eqb (key y) k) before = true \/ In k (map key (first_occ_from key before l)).
Proof.
  revert before. induction l as [|x l IH]; intros before Hk; [destruct Hk|].
  cbn [map] in Hk. cbn [first_occ_from]. rewrite map_app.
  destruct Hk as [<-|Hk].
  - destruct (existsb _ before); [left; reflexivity|right]. left. reflexivity.
  - destruct (IH (before ++ [x])%list Hk) as [H|H].
    + rewrite existsb_app in H. apply orb_true_iff in H as [H|H]; [left; exact H|].
      cbn in H. rewrite orb_false_r in H. apply String.eqb_eq in H. subst k.
      destruct (existsb _ before); [left; reflexivity|right]. left. reflexivity.
    + right. apply in_or_app. right. exact H.
Qed.

Lemma first_occurrences_keys (l : list A) k :
  In k (map key l) <-> In k (map key (first_occurrences key l)).
Proof.
  split.
  - intros H. destruct (first_occ_from_keys l [] k H) as [E|E]; [discriminate|exact E].
  - intros H. apply in_map_iff in H as [y [<- Hy]]. apply in_map.
    exact (first_occ_from_incl l [] y Hy).
Qed.

End FirstOcc.

Lemma MakeUnique_eq nzb :
  MakeUnique nzb =
  Nzb.set_Files nzb
    (map (fun f => NzbFile.set_Segments f (first_occurrences NzbSegment.ID (NzbFile.Segments f)))
         (first_occurrences NzbFile.Subject (Nzb.Files nzb))).
Proof.
  unfold MakeUnique. rewrite unique_files_eq. f_equal. apply map_ext. intros f.
  rewrite unique_segments_eq. reflexivity.
Qed.

Lemma MakeUnique_nodup nzb :
  NoDup (map NzbFile.Subject (Nzb.Files (MakeUnique nzb))) /\
  Forall (fun f => NoDup (map NzbSegment.ID (NzbFile.Segments f))) (Nzb.Files (MakeUnique nzb)).
Proof.
  rewrite MakeUnique_eq. unfold Nzb.set_Files. cbn [Nzb.Files]. split.
  - rewrite map_map. unfold NzbFile.set_Segments. cbn [NzbFile.Subject].
    apply (first_occ_from_nodup NzbFile.Subject (Nzb.Files nzb) []).
  - apply List.Forall_forall. intros f Hf. apply in_map_iff in Hf as [f0 [<- _]].
    unfold NzbFile.set_Segments. cbn [NzbFile.Segments].
    apply (first_occ_from_nodup NzbSegment.ID (NzbFile.Segments f0) []).
Qed.

Lemma MakeUnique_id_of_nodup nzb :
  NoDup (map NzbFile.Subject (Nzb.Files nzb)) ->
  Forall (fun f => NoDup (map NzbSegment.ID (NzbFile.Segments f))) (Nzb.Files nzb) ->
  MakeUnique nzb = nzb.
Proof.
  intros Hf Hs. rewrite MakeUnique_eq, first_occurrences_id by exact Hf.
  rewrite (map_ext_in _ (fun f => f)), map_id.
  - destruct nzb; reflexivity.
  - intros f Hin. rewrite first_occurrences_id.
    + destruct f; reflexivity.
    + exact (proj1 (List.Forall_forall _ _) Hs f Hin).
Qed.

(** X: MakeUnique leaves an Nzb unchanged when its file subjects are
    pairwise distinct and so are the segment IDs of each file. *)
Theorem MakeUnique_no_duplicates_unchanged nzb :
  NoDup (map NzbFile.Subject (Nzb.Files nzb)) ->
  Forall (fun f => NoDup (map NzbSegment.ID (NzbFile.Segments f))) (Nzb.Files nzb) ->
  MakeUnique nzb = nzb.
Proof. exact (MakeUnique_id_of_nodup nzb). Qed.

(** X: MakeUnique is idempotent. *)
Theorem MakeUnique_idempotent nzb : MakeUnique (MakeUnique nzb) = MakeUnique nzb.
Proof.
  destruct (MakeUnique_nodup nzb) as [Hf Hs]. exact (MakeUnique_id_of_nodup _ Hf Hs).
Qed.

(** X: MakeUnique loses no subject and no segment ID: the subjects after
    it are those before it, and each file it keeps is an input file whose
    segments have the same IDs as before. *)
Theorem MakeUnique_keeps_keys nzb :
  let res := MakeUnique nzb in
  (forall k, In k (map NzbFile.Subject (Nzb.Files nzb)) <->
             In k (map NzbFile.Subject (Nzb.Files res))) /\
  Forall (fun g => exists f, In f (Nzb.Files nzb) /\
             g = NzbFile.set_Segments f (NzbFile.Segments g) /\
             forall k, In k (map NzbSegment.ID (NzbFile.Segments f)) <->
                       In k (map NzbSegment.ID (NzbFile.Segments g)))
         (Nzb.Files res).
Proof.
  cbv zeta. rewrite MakeUnique_eq. unfold Nzb.set_Files. cbn [Nzb.Files]. split.
  - intros k. rewrite map_map. unfold NzbFile.set_Segments. cbn [NzbFile.Subject].
    apply first_occurrences_keys.
  - apply List.Forall_forall. intros g Hg. apply in_map_iff in Hg as [f [<- Hf]].
    exists f. split; [exact (first_occ_from_incl _ _ _ _ Hf)|]. split.
    + unfold NzbFile.set_Segments. reflexivity.
    + intros k. unfold NzbFile.set_Segments at 1. cbn [NzbFile.Segments].
      apply first_occurrences_keys.
Qed.

(** ** [ParseWithOptions] and [Write]: extra properties *)

Lemma fold_meta_rev (md : list xNzbMeta.t) (m0 : gmap string string) :
  fold_left (fun meta x => <[xNzbMeta.Type' x := xNzbMeta.Value x]> meta) md m0 =
  fold_right (fun x meta => <[xNzbMeta.Type' x := xNzbMeta.Value x]> meta) m0 (rev md).
Proof.
  revert m0. induction md as [|x md IH]; intros m0; [reflexivity|].
  cbn [fold_left rev]. rewrite IH, fold_right_app. reflexivity.
Qed.

Lemma convert_meta_list_to_map md :
  convert_meta md =
  list_to_map (map (fun x => (xNzbMeta.Type' x, xNzbMeta.Value x)) (rev md)).
Proof.
  unfold convert_meta. rewrite fold_meta_rev. induction (rev md) as [|x l IH]; [reflexivity|].
  cbn [fold_right map]. rewrite IH. reflexivity.
Qed.

Lemma fold_meta_other (l : list xNzbMeta.t) (m0 : gmap string string) k :
  Forall (fun y => xNzbMeta.Type' y <> k) l ->
  fold_left (fun meta x => <[xNzbMeta.Type' x := xNzbMeta.Value x]> meta) l m0 !! k = m0 !! k.
Proof.
  revert m0. induction l as [|y l IH]; intros m0 H; [reflexivity|].
  inversion H as [|? ? Hy Hl]; subst. cbn [fold_left]. rewrite IH by exact Hl.
  apply lookup_insert_ne. exact Hy.
Qed.

Lemma parse_convert_subjects unesc opts xnzb :
  map NzbFile.Subject (Nzb.Files (parse_convert unesc opts xnzb)) =
  map NzbFile.Subject (if RemoveDuplicates opts
                       then first_occurrences NzbFile.Subject (xNzb.Files xnzb)
                       else xNzb.Files xnzb).
Proof.
  unfold parse_convert. rewrite ScanNzbFile_eq. cbn [Nzb.Files]. rewrite map_map.
  rewrite (map_ext (fun x => NzbFile.Subject (scanned unesc x)) NzbFile.Subject)
    by (intros f; rewrite scanned_eq; reflexivity).
  destruct (RemoveDuplicates opts); [|reflexivity].
  rewrite MakeUnique_eq. unfold Nzb.set_Files. cbn [Nzb.Files]. rewrite map_map. reflexivity.
Qed.

Lemma parse_convert_TotalFiles unesc opts xnzb :
  (Z.of_nat (length (Nzb.Files (parse_convert unesc opts xnzb))) <=
   Nzb.TotalFiles (parse_convert unesc opts xnzb))%Z.
Proof.
  unfold parse_convert. rewrite ScanNzbFile_eq. cbn [Nzb.Files Nzb.TotalFiles].
  rewrite length_map. lia.
Qed.

Lemma sorted_files_subjects (files out : list NzbFile.t) :
  Forall2 (fun f g => exists segs, sort_Sort NzbSegment.Number (NzbFile.Segments f) segs /\
                                   g = NzbFile.set_Segments f segs) files out ->
  map NzbFile.Subject out = map NzbFile.Subject files.
Proof.
  induction 1 as [|f g fs gs [segs [_ ->]] _ IH]; [reflexivity|].
  cbn [map]. rewrite IH. reflexivity.
Qed.

Lemma ParseWithOptions_result_subjects unesc opts xnzb res :
  ParseWithOptions_result unesc opts xnzb res ->
  Permutation (map NzbFile.Subject (Nzb.Files res))
              (map NzbFile.Subject (Nzb.Files (parse_convert unesc opts xnzb))) /\
  (Z.of_nat (length (Nzb.Files res)) <= Nzb.TotalFiles res)%Z.
Proof.
  intros (_ & _ & Htf & _ & _ & _ & files & [Hperm _] & H2). split.
  - rewrite (sorted_files_subjects _ _ H2). apply Permutation_map. symmetry. exact Hperm.
  - rewrite Htf, <- (Forall2_length _ _ _ H2), <- (Permutation_length Hperm).
    apply parse_convert_TotalFiles.
Qed.

Lemma parse_convert_result_sorted unesc opts xnzb :
  let nzb := parse_convert unesc opts xnzb in
  Sorted (fun a b => (NzbFile.Number a <= NzbFile.Number b)%Z) (Nzb.Files nzb) ->
  Forall (fun f => Sorted (fun a b => (NzbSegment.Number a <= NzbSegment.Number b)%Z)
                          (NzbFile.Segments f)) (Nzb.Files nzb) ->
  ParseWithOptions_result unesc opts xnzb nzb.
Proof.
  cbv zeta. intros Hs Hseg. unfold ParseWithOptions_result. cbv zeta.
  do 6 (split; [reflexivity|]).
  exists (Nzb.Files (parse_convert unesc opts xnzb)). split; [split; [reflexivity|exact Hs]|].
  clear Hs. induction Hseg as [|f fs Hf _ IH]; [constructor|]. constructor; [|exact IH].
  exists (NzbFile.Segments f). split; [split; [reflexivity|exact Hf]|].
  destruct f; reflexivity.
Qed.

(** X: in the Meta map built by Parse, the value of a type is the value of
    the last metadata entry with that type. *)
Theorem convert_meta_last_wins pre x post :
  Forall (fun y => xNzbMeta.Type' y <> xNzbMeta.Type' x) post ->
  convert_meta (pre ++ x :: post) !! xNzbMeta.Type' x = Some (xNzbMeta.Value x).
Proof.
  intros H. unfold convert_meta. rewrite fold_left_app. cbn [fold_left].
  rewrite fold_meta_other by exact H. apply lookup_insert_eq.
Qed.

Lemma convert_meta_last_wins_witness :
  Forall (fun y => xNzbMeta.Type' y <> "title") [xNzbMeta.mk "size" "1"] /\
  convert_meta ([xNzbMeta.mk "title" "A"] ++ xNzbMeta.mk "title" "B" :: [xNzbMeta.mk "size" "1"])
    !! "title" = Some "B".
Proof.
  assert (H : Forall (fun y => xNzbMeta.Type' y <> xNzbMeta.Type' (xNzbMeta.mk "title" "B"))
                     [xNzbMeta.mk "size" "1"])
    by (repeat constructor; cbn; discriminate).
  split; [exact H|].
  exact (convert_meta_last_wins [xNzbMeta.mk "title" "A"] (xNzbMeta.mk "title" "B")
           [xNzbMeta.mk "size" "1"] H).
Defined.

(** X: a type that no metadata entry has is missing from the Meta map
    built by Parse. *)
Theorem convert_meta_missing md k :
  Forall (fun y => xNzbMeta.Type' y <> k) md -> convert_meta md !! k = None.
Proof. intros H. unfold convert_meta. rewrite fold_meta_other by exact H. apply lookup_empty. Qed.

Lemma convert_meta_missing_witness :
  Forall (fun y => xNzbMeta.Type' y <> "size") (xNzb.Metadata demo_xnzb) /\
  convert_meta (xNzb.Metadata demo_xnzb) !! "size" = None.
Proof.
  assert (H : Forall (fun y => xNzbMeta.Type' y <> "size") (xNzb.Metadata demo_xnzb))
    by (vm_compute; repeat constructor; discriminate).
  split; [exact H|]. exact (convert_meta_missing _ _ H).
Defined.

(** X: the metadata list Write builds from the Meta map, whatever order
    the map is visited in, is turned back into the same map by the
    metadata loop of Parse. *)
Theorem write_parse_meta_round_trip nzb order :
  Permutation order (map_to_list (Nzb.Meta nzb)) ->
  convert_meta (xNzb.Metadata (write_xnzb nzb order)) = Nzb.Meta nzb.
Proof.
  intros Hperm. unfold write_xnzb. cbn [xNzb.Metadata]. rewrite convert_meta_list_to_map.
  rewrite <- map_rev, map_map.
  rewrite (map_ext (fun x => (xNzbMeta.Type' (let '(t, v) := x in xNzbMeta.mk t v),
                              xNzbMeta.Value (let '(t, v) := x in xNzbMeta.mk t v))) id)
    by (intros [t v]; reflexivity).
  rewrite map_id. symmetry. apply list_to_map_flip.
  etransitivity; [symmetry; exact Hperm|apply Permutation_rev].
Qed.

Lemma write_parse_meta_round_trip_witness :
  Permutation (rev (map_to_list demo_meta))
              (map_to_list (Nzb.Meta (Nzb.mk "c" demo_meta [] 0 0 0 0))) /\
  convert_meta (xNzb.Metadata (write_xnzb (Nzb.mk "c" demo_meta [] 0 0 0 0)
                                          (rev (map_to_list demo_meta)))) = demo_meta.
Proof.
  assert (H : Permutation (rev (map_to_list demo_meta))
                          (map_to_list (Nzb.Meta (Nzb.mk "c" demo_meta [] 0 0 0 0))))
    by (symmetry; apply Permutation_rev).
  split; [exact H|].
  exact (write_parse_meta_round_trip (Nzb.mk "c" demo_meta [] 0 0 0 0) _ H).
Defined.

(** X: whatever order the sorts of ParseWithOptions leave, the files it
    returns have, up to order, the subjects of the decoded files, reduced
    to their first occurrences when RemoveDuplicates is set; and its
    TotalFiles is at least the number of files returned. *)
Theorem ParseWithOptions_files unesc opts xnzb res :
  ParseWithOptions_result unesc opts xnzb res ->
  Permutation (map NzbFile.Subject (Nzb.Files res))
              (map NzbFile.Subject (if RemoveDuplicates opts
                                    then first_occurrences NzbFile.Subject (xNzb.Files xnzb)
                                    else xNzb.Files xnzb)) /\
  (Z.of_nat (length (Nzb.Files res)) <= Nzb.TotalFiles res)%Z.
Proof.
  intros H. rewrite <- (parse_convert_subjects unesc). exact (ParseWithOptions_result_subjects _ _ _ _ H).
Qed.

Lemma ParseWithOptions_files_witness :
  ParseWithOptions_result (fun s => s) demo_options demo_xnzb
    (parse_convert (fun s => s) demo_options demo_xnzb) /\
  Permutation (map NzbFile.Subject (Nzb.Files (parse_convert (fun s => s) demo_options demo_xnzb)))
              ["[1/2] a.rar (1/2)"; "[2/2] b.rar (1/1)"] /\
  (Z.of_nat (length (Nzb.Files (parse_convert (fun s => s) demo_options demo_xnzb))) <=
   Nzb.TotalFiles (parse_convert (fun s => s) demo_options demo_xnzb))%Z.
Proof.
  assert (H : ParseWithOptions_result (fun s => s) demo_options demo_xnzb
                (parse_convert (fun s => s) demo_options demo_xnzb)).
  { apply parse_convert_result_sorted; vm_compute; repeat constructor; discriminate. }
  split; [exact H|]. exact (ParseWithOptions_files _ _ _ _ H).
Defined.

(** X: with RemoveDuplicates set, the files ParseWithOptions returns have
    pairwise distinct subjects. *)
Theorem ParseWithOptions_unique_subjects unesc opts xnzb res :
  RemoveDuplicates opts = true ->
  ParseWithOptions_result unesc opts xnzb res ->
  NoDup (map NzbFile.Subject (Nzb.Files res)).
Proof.
  intros Hrd H. destruct (ParseWithOptions_result_subjects _ _ _ _ H) as [Hperm _].
  rewrite (parse_convert_subjects unesc), Hrd in Hperm.
  apply NoDup_ListNoDup. apply (Permutation_NoDup (Permutation_sym Hperm)).
  apply NoDup_ListNoDup.
  exact (proj1 (first_occ_from_nodup NzbFile.Subject (xNzb.Files xnzb) [])).
Qed.

Lemma ParseWithOptions_unique_subjects_witness :
  ParseWithOptions_result (fun s => s) demo_options demo_xnzb
    (parse_convert (fun s => s) demo_options demo_xnzb) /\
  NoDup (map NzbFile.Subject (Nzb.Files (parse_convert (fun s => s) demo_options demo_xnzb))).
Proof.
  assert (H : ParseWithOptions_result (fun s => s) demo_options demo_xnzb
                (parse_convert (fun s => s) demo_options demo_xnzb)).
  { apply parse_convert_result_sorted; vm_compute; repeat constructor; discriminate. }
  split; [exact H|]. exact (ParseWithOptions_unique_subjects (fun s => s) demo_options demo_xnzb _ eq_refl H).
Defined.

Lemma MakeUnique_no_duplicates_unchanged_witness :
  NoDup (map NzbFile.Subject (Nzb.Files demo_nzb)) /\
  Forall (fun f => NoDup (map NzbSegment.ID (NzbFile.Segments f))) (Nzb.Files demo_nzb) /\
  MakeUnique demo_nzb = demo_nzb.
Proof.
  assert (H1 : NoDup (map NzbFile.Subject (Nzb.Files demo_nzb)))
    by (apply (bool_decide_unpack _); vm_compute; reflexivity).
  assert (H2 : Forall (fun f => NoDup (map NzbSegment.ID (NzbFile.Segments f))) (Nzb.Files demo_nzb))
    by (apply (bool_decide_unpack _); vm_compute; reflexivity).
  split; [exact H1|split; [exact H2|]]. exact (MakeUnique_no_duplicates_unchanged demo_nzb H1 H2).
Defined.

Lemma existsb_key_false {A} (key : A -> string) (l : list A) k :
  Forall (fun y => key y <> k) l -> existsb (fun y => String.eqb (key y) k) l = false.
Proof.
  intros H. apply not_true_iff_false. intros E.
  apply existsb_exists in E as [y [Hy E]]. apply String.eqb_eq in E.
  exact (proj1 (List.Forall_forall _ _) H y Hy E).
Qed.

Lemma first_occ_from_In {A} (key : A -> string) (pre before post : list A) x :
  Forall (fun y => key y <> key x) (before ++ pre)%list ->
  In x (first_occ_from key before (pre ++ x :: post)%list).
Proof.
  revert before. induction pre as [|p pre IH]; intros before H.
  - rewrite app_nil_r in H. cbn [app first_occ_from].
    rewrite existsb_key_false by exact H. left. reflexivity.
  - cbn [app first_occ_from]. apply in_or_app. right.
    apply IH. rewrite <- app_assoc. exact H.
Qed.

Lemma map_not_NoDup {A B} (F : A -> B) (l : list A) a b :
  In a l -> In b l -> a <> b -> F a = F b -> ~ List.NoDup (map F l).
Proof.
  induction l as [|x l IH]; intros Ha Hb Hne Hf Hnd; [destruct Ha|].
  cbn [map] in Hnd. inversion Hnd as [|? ? Hx Hnd']; subst.
  destruct Ha as [<-|Ha], Hb as [<-|Hb].
  - exact (Hne eq_refl).
  - apply Hx. rewrite Hf. apply in_map, Hb.
  - apply Hx. rewrite <- Hf. apply in_map, Ha.
  - exact (IH Ha Hb Hne Hf Hnd').
Qed.

Lemma scanned_not_NoDup unesc f a b :
  In a (NzbFile.Segments f) -> In b (NzbFile.Segments f) ->
  NzbSegment.ID a <> NzbSegment.ID b -> unesc (NzbSegment.ID a) = unesc (NzbSegment.ID b) ->
  ~ List.NoDup (map NzbSegment.ID (NzbFile.Segments (scanned unesc f))).
Proof.
  intros Ha Hb Hne Hu. rewrite scanned_eq. cbn [NzbFile.Segments]. rewrite map_map.
  apply (map_not_NoDup _ _ a b Ha Hb); [congruence|exact Hu].
Qed.

Lemma Forall2_In_l {A B} (R : A -> B -> Prop) l1 l2 x :
  Forall2 R l1 l2 -> In x l1 -> exists y, In y l2 /\ R x y.
Proof.
  induction 1 as [|x1 y1 l1 l2 Hr _ IH]; intros Hx; [destruct Hx|].
  destruct Hx as [<-|Hx].
  - exists y1. split; [left; reflexivity|exact Hr].
  - destruct (IH Hx) as [y [Hy Hr']]. exists y. split; [right; exact Hy|exact Hr'].
Qed.

(** X: duplicate segments are removed by raw ID before ScanNzbFile
    unescapes the IDs. So when a decoded file (the first with its subject,
    if RemoveDuplicates is set) has two segments whose different IDs
    unescape to the same string, ParseWithOptions returns a file with that
    subject whose segment IDs are not pairwise distinct. *)
Theorem ParseWithOptions_unescaped_duplicates unesc opts xnzb pre f post s1 s2 res :
  xNzb.Files xnzb = (pre ++ f :: post)%list ->
  (RemoveDuplicates opts = true ->
   Forall (fun g => NzbFile.Subject g <> NzbFile.Subject f) pre) ->
  In s1 (NzbFile.Segments f) -> In s2 (NzbFile.Segments f) ->
  NzbSegment.ID s1 <> NzbSegment.ID s2 ->
  unesc (NzbSegment.ID s1) = unesc (NzbSegment.ID s2) ->
  ParseWithOptions_result unesc opts xnzb res ->
  exists g, In g (Nzb.Files res) /\ NzbFile.Subject g = NzbFile.Subject f /\
            ~ NoDup (map NzbSegment.ID (NzbFile.Segments g)).
Proof.
  intros Hf Hpre Hs1 Hs2 Hne Hu (_ & _ & _ & _ & _ & _ & files & [Hperm _] & H2).
  assert (Hc : exists f0, In f0 (Nzb.Files (parse_convert unesc opts xnzb)) /\
                 NzbFile.Subject f0 = NzbFile.Subject f /\
                 ~ List.NoDup (map NzbSegment.ID (NzbFile.Segments f0))).
  { unfold parse_convert. rewrite ScanNzbFile_eq. cbn [Nzb.Files].
    destruct (RemoveDuplicates opts) eqn:Erd; cbn [Nzb.Files].
    - rewrite MakeUnique_eq. unfold Nzb.set_Files. cbn [Nzb.Files]. rewrite Hf.
      set (segs := first_occurrences NzbSegment.ID (NzbFile.Segments f)).
      assert (Hk : forall s, In s (NzbFile.Segments f) ->
                     exists a, In a segs /\ NzbSegment.ID a = NzbSegment.ID s).
      { intros s Hs. apply (in_map NzbSegment.ID) in Hs.
        apply first_occurrences_keys in Hs. apply in_map_iff in Hs as [a [Ea Ha]].
        exists a. split; assumption. }
      destruct (Hk s1 Hs1) as [a [Ha Ea]]. destruct (Hk s2 Hs2) as [b [Hb Eb]].
      exists (scanned unesc (NzbFile.set_Segments f segs)). split; [|split].
      + apply in_map. apply (in_map (fun f => NzbFile.set_Segments f
                               (first_occurrences NzbSegment.ID (NzbFile.Segments f)))).
        apply first_occ_from_In. exact (Hpre eq_refl).
      + rewrite scanned_eq. reflexivity.
      + apply (scanned_not_NoDup unesc (NzbFile.set_Segments f segs) a b Ha Hb); congruence.
    - exists (scanned unesc f). split; [|split].
      + apply in_map. rewrite Hf. apply in_or_app. right. left. reflexivity.
      + rewrite scanned_eq. reflexivity.
      + exact (scanned_not_NoDup unesc f s1 s2 Hs1 Hs2 Hne Hu). }
  destruct Hc as (f0 & Hin & Hsub & Hnd).
  apply (Permutation_in _ Hperm) in Hin.
  destruct (Forall2_In_l _ _ _ _ H2 Hin) as (g & Hg & segs & [Hsp _] & ->).
  exists (NzbFile.set_Segments f0 segs). split; [exact Hg|]. split; [exact Hsub|].
  cbn [NzbFile.Segments NzbFile.set_Segments]. intros Hnd'. apply NoDup_ListNoDup in Hnd'.
  apply Hnd. exact (Permutation_NoDup (Permutation_map NzbSegment.ID (Permutation_sym Hsp)) Hnd').
Qed.

Lemma ParseWithOptions_unescaped_duplicates_witness :
  exists g, In g (Nzb.Files (parse_convert demo_unescape demo_options demo_dup_xnzb)) /\
            NzbFile.Subject g = NzbFile.Subject demo_dup_file /\
            ~ NoDup (map NzbSegment.ID (NzbFile.Segments g)).
Proof.
  assert (H : ParseWithOptions_result demo_unescape demo_options demo_dup_xnzb
                (parse_convert demo_unescape demo_options demo_dup_xnzb)).
  { apply parse_convert_result_sorted; vm_compute; repeat constructor; discriminate. }
  apply (ParseWithOptions_unescaped_duplicates demo_unescape demo_options demo_dup_xnzb
           [demo_dup_first] demo_dup_file [demo_dup_later]
           (demo_segment 1 "a&amp;b") (demo_segment 2 "a&b")); try exact H.
  - reflexivity.
  - intros _. repeat constructor. vm_compute. discriminate.
  - vm_compute. left. reflexivity.
  - vm_compute. right. left. reflexivity.
  - vm_compute. discriminate.
  - vm_compute. reflexivity.
Defined.
